(** * vizbeauty.common: plotting and descriptive-statistics helpers

    A shallow embedding of [src/vizbeauty/common.py].  The five functions of
    the module are thin wrappers around pandas, numpy, scipy, seaborn and
    matplotlib.  The embedding is built in layers:

    - [Num]: Python floats, as the rationals that doubles are plus [NaN],
      with [+], [round] and [str] as Python computes them on doubles;
    - [Data], [Stats]: Series and DataFrame and the reductions the module
      calls ([Series.mean], [np.percentile], ...);
    - [Py]: the interpreter state (a heap of Series, DataFrame, Axes and
      Figure objects, the console and pyplot's figure list) and a
      state-and-exception monad over it, with the library entry points the
      module calls;
    - [Common]: the five functions of [common.py], statement by statement;
    - [Spec] and [Examples]: the vocabulary of the statements proved about
      them, and concrete inputs.

    Conventions of the numeric layer.  The arithmetic of Python itself
    (the sums [value + 0.2], [round], [str]) is binary64 arithmetic: every
    result is rounded to the nearest double.  The arithmetic inside the
    libraries (means, deviations, the least-squares fit) is exact: a
    reduction returns the rational its definition denotes, where pandas
    and numpy return a double within a few units in the last place of it.
    The square root used by [std] and [skew] is truncated to twenty decimal
    places.  There are no infinities and no integer columns: a numeric
    column is a float64 column of finite values and NaN. *)

From Stdlib Require Import QArith Qround Qabs ZArith String Ascii List.
From Stdlib Require Import DecimalString Lia Lqa.
From stdpp Require Import gmap strings list.

Open Scope Z_scope.

(* ===================================================================== *)
(** ** Numbers *)
(* ===================================================================== *)

Module Num.

(** A Python / numpy float: a finite value or NaN.  [Fin q] stands for the
    double (IEEE 754 binary64) nearest to [q]: the operations of Python
    itself ([+], [round], [str]) read their operands through [b64] and
    round their results as the machine does.  A comparison takes [q] as
    it is, which for doubles is what the machine does.  Infinities are
    not modelled: no operation overflows. *)
Inductive pyfloat : Type :=
  | Fin (q : Q)
  | NaN.

Definition of_Z (z : Z) : pyfloat := Fin (inject_Z z).

Definition is_nan (f : pyfloat) : bool :=
  match f with NaN => true | Fin _ => false end.

(** Round to the nearest integer, ties to the even one (C [rint]). *)
Definition rint (q : Q) : Z :=
  let n := Qnum q in
  let d := Zpos (Qden q) in
  let fl := n / d in
  let r2 := 2 * (n mod d) in
  if r2 <? d then fl
  else if d <? r2 then fl + 1
  else if Z.even fl then fl else fl + 1.

(** [2 ^ k] and [10 ^ k] for any integer [k]. *)
Definition pow2 (k : Z) : Q :=
  if 0 <=? k then inject_Z (2 ^ k) else 1 # Z.to_pos (2 ^ (- k)).

Definition pow10 (k : Z) : Q :=
  if 0 <=? k then inject_Z (10 ^ k) else 1 # Z.to_pos (10 ^ (- k)).

(** The double nearest to [q], ties to the even significand: 53
    significant bits, the last of them worth at least [2 ^ -1074]. *)
Definition b64 (q : Q) : Q :=
  let c := Qred q in
  let n := Z.abs (Qnum c) in
  if n =? 0 then 0%Q
  else
    let e0 := Z.log2 n - Z.log2 (Zpos (Qden c)) in
    let e := if Qle_bool (pow2 e0) (n # Qden c) then e0 else e0 - 1 in
    let s := Z.max (e - 52) (-1074) in
    Qred (inject_Z (rint (c / pow2 s)) * pow2 s).

(** [a + b], [a < b] on floats; NaN is absorbing for [+] and every
    comparison with NaN is false. *)
Definition fadd (a b : pyfloat) : pyfloat :=
  match a, b with
  | Fin x, Fin y => Fin (b64 (b64 x + b64 y))
  | _, _ => NaN
  end.

Definition flt (a b : pyfloat) : bool :=
  match a, b with
  | Fin x, Fin y => negb (Qle_bool y x)
  | _, _ => false
  end.

(** The decimal with [ndigits] places nearest to [q], ties to even. *)
Definition qround (q : Q) (ndigits : nat) : Q :=
  let p := 10 ^ Z.of_nat ndigits in
  Qred (Qmake (rint (q * inject_Z p)) (Z.to_pos p)).

(** Negative zero: the fraction 0/2, which every comparison, every sum
    and [round] take for zero and [str] shows as [-0.0].  It is what
    [round] returns for a negative value that rounds to zero. *)
Definition neg_zero : Q := 0 # 2.

Definition is_neg_zero (q : Q) : bool :=
  (Qnum q =? 0) && negb (Qden q =? 1)%positive.

(** [round(x, ndigits)] for a float [x]: the double is rounded correctly
    to [ndigits] decimals; a negative value that rounds to zero gives
    negative zero. *)
Definition round (f : pyfloat) (ndigits : nat) : pyfloat :=
  match f with
  | Fin q =>
      let x := b64 q in
      let r := qround x ndigits in
      Fin (if (Qnum r =? 0) && (Qnum x <? 0) then neg_zero else r)
  | NaN => NaN
  end.

(** *** Text of a number *)

Definition str_Z (z : Z) : string := NilZero.string_of_int (Z.to_int z).

Fixpoint strip_zeros_rev (s : list ascii) : list ascii :=
  match s with
  | "0"%char :: t => strip_zeros_rev t
  | _ => s
  end.

(** Drop the zeros that end [s]. *)
Definition strip_trailing_zeros (s : string) : string :=
  string_of_list_ascii
    (rev (strip_zeros_rev (rev (list_ascii_of_string s)))).

Fixpoint zeros (n : nat) : string :=
  match n with
  | O => EmptyString
  | S k => String "0"%char (zeros k)
  end.

(** Number of decimal digits of a positive integer. *)
Definition ndigits (z : Z) : Z := Z.of_nat (String.length (str_Z z)).

(** [floor (log10 a)] for a positive [a]. *)
Definition decimal_exponent (a : Q) : Z :=
  let n := Qnum a in
  let d := Zpos (Qden a) in
  if d <=? n then ndigits (n / d) - 1
  else
    let t := ndigits (d / n) in
    if Qle_bool (pow10 (1 - t)) a then 1 - t else - t.

(** The decimal [D * 10 ^ (e - p + 1)] with [p] digits nearest to the
    positive double [a] that reads back as [a], if there is one. *)
Definition round_trip (a : Q) (e : Z) (p : Z) : option Z :=
  let scale := pow10 (e - p + 1) in
  let t := (a / scale)%Q in
  let lo := Qfloor t in
  let hi := lo + 1 in
  let reads D := Qeq_bool (b64 (inject_Z D * scale)) a in
  let lower := Qminus t (inject_Z lo) in
  let upper := Qminus (inject_Z hi) t in
  match reads lo, reads hi with
  | true, true =>
      if Qeq_bool lower upper then Some (if Z.even lo then lo else hi)
      else if Qle_bool lower upper then Some lo else Some hi
  | true, false => Some lo
  | false, true => Some hi
  | false, false => None
  end.

(** The digits of the shortest decimal that reads back as [a], with the
    number of digits asked for: [repr] tries 1, 2, ... up to 17. *)
Fixpoint shortest (fuel : nat) (a : Q) (e : Z) (p : Z) : Z * Z :=
  match fuel with
  | O => (rint (a / pow10 (e - p + 1)), p)
  | S k =>
      match round_trip a e p with
      | Some D => (D, p)
      | None => shortest k a e (p + 1)
      end
  end.

(** [repr] of a positive double: the shortest digits that read back as
    it, with the point placed as Python does, and an exponent when the
    value is below [1e-4] or at least [1e16]. *)
Definition repr_positive (a : Q) : string :=
  let e := decimal_exponent a in
  let '(D, p) := shortest 16 a e 1 in
  let all := str_Z D in
  let decpt := e + 1 + (Z.of_nat (String.length all) - p) in
  let ds := strip_trailing_zeros all in
  let n := Z.of_nat (String.length ds) in
  if (decpt <=? -4) || (16 <? decpt) then
    let x := decpt - 1 in
    let mant :=
      match ds with
      | String c EmptyString => String c EmptyString
      | String c rest => (String c "." ++ rest)%string
      | EmptyString => "0"%string
      end in
    let xs := str_Z (Z.abs x) in
    let xs := if (String.length xs <? 2)%nat then ("0" ++ xs)%string else xs in
    (mant ++ "e" ++ (if (x <? 0)%Z then "-" else "+") ++ xs)%string
  else if decpt <=? 0 then
    ("0." ++ zeros (Z.to_nat (- decpt)) ++ ds)%string
  else if n <=? decpt then
    (ds ++ zeros (Z.to_nat (decpt - n)) ++ ".0")%string
  else
    (String.substring 0 (Z.to_nat decpt) ds ++ "." ++
     String.substring (Z.to_nat decpt) (Z.to_nat (n - decpt)) ds)%string.

(** [str(x)] for a float [x]. *)
Definition str_Q (q : Q) : string :=
  if is_neg_zero q then "-0.0"%string
  else
    let x := b64 q in
    if Qnum x =? 0 then "0.0"%string
    else if Qnum x <? 0 then ("-" ++ repr_positive (Qopp x))%string
    else repr_positive x.

Definition str (f : pyfloat) : string :=
  match f with
  | Fin q => str_Q q
  | NaN => "nan"%string
  end.

End Num.

(* ===================================================================== *)
(** ** Data: cells, Series, DataFrame, exceptions *)
(* ===================================================================== *)

Module Data.
Import Num.

(** The Python exceptions the libraries raise in the modelled calls. *)
Inductive exn : Type :=
  | TypeError
  | ValueError
  | IndexError
  | KeyError (key : string)
  | AttributeError.

(** A result or a raised exception. *)
Definition result (A : Type) : Type := (exn + A)%type.

(** One entry of a column: a float (missing entries are NaN) or a string
    (a category label, or a non-numeric entry of an object column).  A
    column of integers is not modelled: pandas hands out integers there,
    which [round] and [str] show without a decimal point. *)
Inductive cell : Type :=
  | CNum (v : pyfloat)
  | CStr (s : string).

(** A pandas Series: its [name] attribute and its values in order. *)
Record Series : Type := mkSeries {
  s_name : option string;
  s_values : list cell
}.

(** A pandas DataFrame: its columns in order, all of one length. *)
Definition DataFrame : Type := list (string * list cell).

Fixpoint column (d : DataFrame) (k : string) : option (list cell) :=
  match d with
  | [] => None
  | (k', v) :: rest => if String.eqb k k' then Some v else column rest k
  end.

(** [data[k]]: the column as a Series named [k]; KeyError when absent. *)
Definition getitem (d : DataFrame) (k : string) : result Series :=
  match column d k with
  | Some v => inr (mkSeries (Some k) v)
  | None => inl (KeyError k)
  end.

(** The values as floats; TypeError when an entry is not a number. *)
Fixpoint as_floats (cs : list cell) : result (list pyfloat) :=
  match cs with
  | [] => inr []
  | CNum v :: rest =>
      match as_floats rest with
      | inr vs => inr (v :: vs)
      | inl e => inl e
      end
  | CStr _ :: _ => inl TypeError
  end.

(** The finite values, in order (what [skipna=True] keeps). *)
Fixpoint dropna (vs : list pyfloat) : list Q :=
  match vs with
  | [] => []
  | Fin q :: rest => q :: dropna rest
  | NaN :: rest => dropna rest
  end.

Definition has_nan (vs : list pyfloat) : bool := existsb is_nan vs.

End Data.

(* ===================================================================== *)
(** ** The reductions of pandas and numpy used by the module *)
(* ===================================================================== *)

Module Stats.
Import Num Data.

Definition qsum (xs : list Q) : Q := Qred (fold_right Qplus 0%Q xs).

Definition qlen (xs : list Q) : Q := inject_Z (Z.of_nat (length xs)).

Definition qmean (xs : list Q) : Q := Qred (qsum xs / qlen xs).

Fixpoint insert_sorted (x : Q) (l : list Q) : list Q :=
  match l with
  | [] => [x]
  | y :: t => if Qle_bool x y then x :: l else y :: insert_sorted x t
  end.

Definition sortQ (xs : list Q) : list Q := fold_right insert_sorted [] xs.

(** Square root of a non-negative rational, truncated to twenty places. *)
Definition qsqrt (q : Q) : Q :=
  let scale := 10 ^ 20 in
  Qred (Qmake (Z.sqrt (Qnum q * scale * scale / Zpos (Qden q)))
              (Z.to_pos scale)).

(** Sum of the [k]-th powers of the deviations from the mean. *)
Definition central_sum (k : positive) (xs : list Q) : Q :=
  let m := qmean xs in
  qsum (map (fun x => Qpower_positive (x - m) k) xs).

(** What a pandas reduction does: refuse non-numeric entries, skip the
    missing ones, and reduce the rest. *)
Definition reduce (f : list Q -> pyfloat) (s : Series) : result pyfloat :=
  match as_floats (s_values s) with
  | inr vs => inr (f (dropna vs))
  | inl e => inl e
  end.

(** [Series.mean()]: NaN when nothing is left. *)
Definition Series_mean : Series -> result pyfloat :=
  reduce (fun xs =>
    match xs with
    | [] => NaN
    | _ => Fin (qmean xs)
    end).

(** [Series.median()]. *)
Definition Series_median : Series -> result pyfloat :=
  reduce (fun xs =>
    let n := length xs in
    let a := sortQ xs in
    match xs with
    | [] => NaN
    | _ =>
        if Nat.even n
        then Fin (Qred ((nth (n / 2 - 1) a 0%Q + nth (n / 2) a 0%Q) / 2))
        else Fin (Qred (nth (n / 2) a 0%Q))
    end).

(** [Series.std()]: sample standard deviation (one degree of freedom
    removed); NaN for fewer than two values. *)
Definition Series_std : Series -> result pyfloat :=
  reduce (fun xs =>
    if (length xs <? 2)%nat then NaN
    else Fin (qsqrt (central_sum 2 xs / (qlen xs - 1)))).

Definition qmin (x y : Q) : Q := if Qle_bool x y then x else y.
Definition qmax (x y : Q) : Q := if Qle_bool x y then y else x.

(** [Series.min()], [Series.max()]. *)
Definition Series_min : Series -> result pyfloat :=
  reduce (fun xs =>
    match xs with
    | [] => NaN
    | x :: t => Fin (Qred (fold_left qmin t x))
    end).

Definition Series_max : Series -> result pyfloat :=
  reduce (fun xs =>
    match xs with
    | [] => NaN
    | x :: t => Fin (Qred (fold_left qmax t x))
    end).

(** [Series.skew()]: adjusted Fisher-Pearson coefficient; NaN for fewer
    than three values, 0 when all values are equal. *)
Definition Series_skew : Series -> result pyfloat :=
  reduce (fun xs =>
    let n := qlen xs in
    let m2 := central_sum 2 xs in
    let m3 := central_sum 3 xs in
    if (length xs <? 3)%nat then NaN
    else if Qeq_bool m2 0 then Fin 0%Q
    else Fin (Qred ((n * qsqrt (n - 1) / (n - 2)) * (m3 / (m2 * qsqrt m2))))).

(** [Series.kurtosis()]: unbiased excess kurtosis; NaN for fewer than four
    values, 0 when the denominator vanishes. *)
Definition Series_kurtosis : Series -> result pyfloat :=
  reduce (fun xs =>
    let n := qlen xs in
    let m2 := central_sum 2 xs in
    let m4 := central_sum 4 xs in
    let adj := (3 * (n - 1) * (n - 1) / ((n - 2) * (n - 3)))%Q in
    let numerator := (n * (n + 1) * (n - 1) * m4)%Q in
    let denominator := ((n - 2) * (n - 3) * (m2 * m2))%Q in
    if (length xs <? 4)%nat then NaN
    else if Qeq_bool denominator 0 then Fin 0%Q
    else Fin (Qred (numerator / denominator - adj))).

(** [Series.isnull().sum()]: the number of missing entries. *)
Definition Series_isnull_sum (s : Series) : nat :=
  length (List.filter (fun c => match c with CNum NaN => true | _ => false end)
                 (s_values s)).

(** The [q]-th percentile of sorted values [a] (not empty), by linear
    interpolation between the two closest ranks. *)
Definition lerp_percentile (a : list Q) (q : Q) : Q :=
  let h := ((qlen a - 1) * q / 100)%Q in
  let lo := Qfloor h in
  let g := (h - inject_Z lo)%Q in
  let i := Z.to_nat lo in
  let j := Nat.min (S i) (length a - 1) in
  let below := nth i a 0%Q in
  let above := nth j a 0%Q in
  Qred (below + g * (above - below)).

(** [np.percentile(a, q)] with numpy's default method.  The array is taken
    as it is: a NaN anywhere makes the result NaN.  An empty array raises
    (IndexError in the numpy releases this was read from), a non-numeric
    one raises TypeError. *)
Definition np_percentile (a : list cell) (q : Q) : result pyfloat :=
  match as_floats a with
  | inl e => inl e
  | inr [] => inl IndexError
  | inr vs =>
      if has_nan vs then inr NaN
      else inr (Fin (lerp_percentile (sortQ (dropna vs)) q))
  end.

End Stats.

(* ===================================================================== *)
(** ** Interpreter state, effects and the plotting libraries *)
(* ===================================================================== *)

Module Py.
Import Num Data Stats.

(** Object identities. *)
Definition loc : Type := positive.

(** How a scatter layer maps columns to colour and size. *)
Record scatter_style : Type := mkStyle {
  sc_hue : option (list cell);
  sc_size : option (list cell);
  sc_sizes : option (Q * Q)
}.

Definition plain_style : scatter_style := mkStyle None None None.

(** What an Axes holds once drawn on. *)
Inductive artist : Type :=
  | Rectangle (x height : pyfloat) (color : string)
      (** a bar centred at [x], from 0 up to [height] *)
  | Text (x y : pyfloat) (s ha va color : string)
  | HLine (y : pyfloat) (color linestyle : string)
      (** a horizontal line across the whole width of the axes *)
  | PathCollection (offsets : list (cell * cell)) (marker : string)
      (style : scatter_style)
      (** scatter markers, one per offset, in order *)
  | Line2D (p1 p2 : pyfloat * pyfloat) (color : string)
      (** a straight line between two points *)
  | Band (level : nat)
      (** the shaded confidence band of a regression line *)
  | Legend (mode : string).

Record Axes : Type := mkAxes {
  ax_figure : loc;
  ax_artists : list artist;
  ax_title : string;
  ax_xlabel : string;
  ax_ylabel : string;
  ax_xticklabels : list string;
  ax_xtick_rotation : Q;
  ax_xtick_ha : string;
  ax_grid : option (string * string)
}.

Record Figure : Type := mkFigure {
  fig_size : Q * Q;
  fig_axes : list loc;
  fig_layout_passes : nat;
  fig_shown : bool
}.

(** Heap objects: the data the caller owns and the plotting objects. *)
Inductive pyobj : Type :=
  | OSeries (s : Series)
  | OFrame (d : DataFrame)
  | OList (l : list cell)
  | OAxes (a : Axes)
  | OFigure (f : Figure).

(** The interpreter state: the heap, the lines printed so far, and the
    figures pyplot manages, the current one last. *)
Record World : Type := mkWorld {
  heap : gmap loc pyobj;
  stdout : list string;
  figs : list loc
}.

(** Computations: they transform the world and return or raise.  What was
    done before an exception stays done. *)
Definition M (A : Type) : Type := World -> World * result A.

Definition ret {A} (a : A) : M A := fun w => (w, inr a).

Definition raise {A} (e : exn) : M A := fun w => (w, inl e).

Definition bind {A B} (m : M A) (k : A -> M B) : M B :=
  fun w =>
    match m w with
    | (w', inr a) => k a w'
    | (w', inl e) => (w', inl e)
    end.

Notation "'let*' x ':=' m 'in' k" := (bind m (fun x => k))
  (at level 10, x name, m at level 100, k at level 200).
Notation "m >> k" := (bind m (fun _ => k))
  (at level 90, right associativity).

Definition lift {A} (r : result A) : M A :=
  match r with
  | inr a => ret a
  | inl e => raise e
  end.

Fixpoint for_each {A} (xs : list A) (body : A -> M unit) : M unit :=
  match xs with
  | [] => ret tt
  | x :: rest => body x >> for_each rest body
  end.

Fixpoint enumerate_from {A} (i : nat) (xs : list A) : list (nat * A) :=
  match xs with
  | [] => []
  | x :: rest => (i, x) :: enumerate_from (S i) rest
  end.

Definition enumerate {A} (xs : list A) : list (nat * A) := enumerate_from 0 xs.

(** *** Console *)

Definition print (line : string) : M unit :=
  fun w => (mkWorld (heap w) (stdout w ++ [line]) (figs w), inr tt).

(** *** Heap access *)

Definition alloc (o : pyobj) : M loc :=
  fun w =>
    let l := fresh (dom (heap w)) in
    (mkWorld (<[l := o]> (heap w)) (stdout w) (figs w), inr l).

Definition store (l : loc) (o : pyobj) : M unit :=
  fun w => (mkWorld (<[l := o]> (heap w)) (stdout w) (figs w), inr tt).

(** The Series at [l], for a method or an attribute of a Series: the
    lookup fails with AttributeError on an object of another class.  (A
    DataFrame has reductions of the same names, which work column by
    column; a DataFrame passed where the module expects a Series is
    outside the embedding, and no statement below is about one.) *)
Definition get_series (l : loc) : M Series :=
  fun w =>
    match heap w !! l with
    | Some (OSeries s) => (w, inr s)
    | _ => (w, inl AttributeError)
    end.

Definition get_frame (l : loc) : M DataFrame :=
  fun w =>
    match heap w !! l with
    | Some (OFrame d) => (w, inr d)
    | _ => (w, inl AttributeError)
    end.

Definition get_axes (l : loc) : M Axes :=
  fun w =>
    match heap w !! l with
    | Some (OAxes a) => (w, inr a)
    | _ => (w, inl AttributeError)
    end.

Definition get_figure (l : loc) : M Figure :=
  fun w =>
    match heap w !! l with
    | Some (OFigure f) => (w, inr f)
    | _ => (w, inl AttributeError)
    end.

(** The values of an array-like argument (a Series or a list). *)
Definition to_array (l : loc) : M (list cell) :=
  fun w =>
    match heap w !! l with
    | Some (OSeries s) => (w, inr (s_values s))
    | Some (OList v) => (w, inr v)
    | _ => (w, inl TypeError)
    end.

(** [data[k]] on a DataFrame object. *)
Definition frame_getitem (data : loc) (k : string) : M Series :=
  let* d := get_frame data in lift (getitem d k).

(** A method of the Axes at [ax] that changes it in place. *)
Definition modify_axes (ax : loc) (f : Axes -> Axes) : M unit :=
  let* a := get_axes ax in store ax (OAxes (f a)).

Definition add_artists (new : list artist) (a : Axes) : Axes :=
  mkAxes (ax_figure a) (ax_artists a ++ new) (ax_title a) (ax_xlabel a)
         (ax_ylabel a) (ax_xticklabels a) (ax_xtick_rotation a)
         (ax_xtick_ha a) (ax_grid a).

(** *** matplotlib: Axes methods *)

(** [ax.text(x, y, s, ha=, va=, color=)]; matplotlib's defaults are
    [ha='left'], [va='baseline'], [color='black']. *)
Definition ax_text (ax : loc) (x y : pyfloat) (s ha va color : string)
  : M unit :=
  modify_axes ax (add_artists [Text x y s ha va color]).

(** [ax.axhline(y=, color=, linestyle=)]. *)
Definition ax_axhline (ax : loc) (y : pyfloat) (color linestyle : string)
  : M unit :=
  modify_axes ax (add_artists [HLine y color linestyle]).

Definition ax_set_title (ax : loc) (s : string) : M unit :=
  modify_axes ax (fun a =>
    mkAxes (ax_figure a) (ax_artists a) s (ax_xlabel a) (ax_ylabel a)
           (ax_xticklabels a) (ax_xtick_rotation a) (ax_xtick_ha a)
           (ax_grid a)).

Definition ax_set_xlabel (ax : loc) (s : string) : M unit :=
  modify_axes ax (fun a =>
    mkAxes (ax_figure a) (ax_artists a) (ax_title a) s (ax_ylabel a)
           (ax_xticklabels a) (ax_xtick_rotation a) (ax_xtick_ha a)
           (ax_grid a)).

Definition ax_set_ylabel (ax : loc) (s : string) : M unit :=
  modify_axes ax (fun a =>
    mkAxes (ax_figure a) (ax_artists a) (ax_title a) (ax_xlabel a) s
           (ax_xticklabels a) (ax_xtick_rotation a) (ax_xtick_ha a)
           (ax_grid a)).

Definition ax_get_xticklabels (ax : loc) : M (list string) :=
  let* a := get_axes ax in ret (ax_xticklabels a).

(** [ax.set_xticklabels(labels, rotation=, ha=)]. *)
Definition ax_set_xticklabels (ax : loc) (labels : list string)
  (rotation : Q) (ha : string) : M unit :=
  modify_axes ax (fun a =>
    mkAxes (ax_figure a) (ax_artists a) (ax_title a) (ax_xlabel a)
           (ax_ylabel a) labels rotation ha (ax_grid a)).

(** [ax.grid(axis=, linestyle=)]: grid lines on. *)
Definition ax_grid_on (ax : loc) (axis linestyle : string) : M unit :=
  modify_axes ax (fun a =>
    mkAxes (ax_figure a) (ax_artists a) (ax_title a) (ax_xlabel a)
           (ax_ylabel a) (ax_xticklabels a) (ax_xtick_rotation a)
           (ax_xtick_ha a) (Some (axis, linestyle))).

(** [ax.scatter(x, y, marker=)]: one marker per pair, in order; the two
    sequences must have the same size. *)
Definition ax_scatter (ax : loc) (xs ys : list cell) (marker : string)
  : M unit :=
  if (length xs =? length ys)%nat
  then modify_axes ax
         (add_artists [PathCollection (combine xs ys) marker plain_style])
  else raise ValueError.

(** *** matplotlib.pyplot: the implicit current figure and axes *)

Definition default_figsize : Q * Q := (32 # 5, 24 # 5)%Q.

Definition new_axes (fig : loc) : Axes :=
  mkAxes fig [] "" "" "" [] 0%Q "center" None.

(** [plt.figure(figsize=)]: a new figure, made current. *)
Definition plt_figure (figsize : Q * Q) : M loc :=
  let* f := alloc (OFigure (mkFigure figsize [] 0 false)) in
  (fun w => (mkWorld (heap w) (stdout w) (figs w ++ [f]), inr f)).

(** [plt.gcf()]: the current figure; one is created when there is none. *)
Definition plt_gcf : M loc :=
  fun w =>
    match last (figs w) with
    | Some f => (w, inr f)
    | None => plt_figure default_figsize w
    end.

(** [plt.gca()]: the current axes of the current figure; one is created
    when the figure has none. *)
Definition plt_gca : M loc :=
  let* f := plt_gcf in
  let* fig := get_figure f in
  match last (fig_axes fig) with
  | Some a => ret a
  | None =>
      let* a := alloc (OAxes (new_axes f)) in
      store f (OFigure (mkFigure (fig_size fig) (fig_axes fig ++ [a])
                                 (fig_layout_passes fig) (fig_shown fig))) >>
      ret a
  end.

(** [plt.tight_layout()]: a layout pass on the current figure.  The pass
    moves the Axes of that figure; an Axes has no position here, so the
    pass is recorded on the figure alone. *)
Definition plt_tight_layout : M unit :=
  let* f := plt_gcf in
  let* fig := get_figure f in
  store f (OFigure (mkFigure (fig_size fig) (fig_axes fig)
                             (S (fig_layout_passes fig)) (fig_shown fig))).

Definition plt_scatter (xs ys : list cell) (marker : string) : M unit :=
  let* a := plt_gca in ax_scatter a xs ys marker.

Definition plt_title (s : string) : M unit :=
  let* a := plt_gca in ax_set_title a s.

Definition plt_xlabel (s : string) : M unit :=
  let* a := plt_gca in ax_set_xlabel a s.

Definition plt_ylabel (s : string) : M unit :=
  let* a := plt_gca in ax_set_ylabel a s.

(** [plt.grid(True)]: both axes, the default solid line style. *)
Definition plt_grid_on : M unit :=
  let* a := plt_gca in ax_grid_on a "both" "-".

(** [plt.show()]: every figure pyplot manages is displayed.  What becomes
    of the figures afterwards depends on the backend (a window backend
    returns once its windows are closed, the inline one closes what it
    has shown); here they stay open, as with a backend that does not
    block. *)
Definition plt_show : M unit :=
  fun w =>
    for_each (figs w) (fun f =>
      let* fig := get_figure f in
      store f (OFigure (mkFigure (fig_size fig) (fig_axes fig)
                                 (fig_layout_passes fig) true))) w.

(** *** seaborn *)

(** [ax] when given, else [plt.gca()]. *)
Definition target (ax : option loc) : M loc :=
  match ax with
  | Some a => ret a
  | None => plt_gca
  end.

(** A plot variable given by column name; seaborn raises ValueError when
    the frame has no such column. *)
Definition variable (d : DataFrame) (k : string) : result (list cell) :=
  match column d k with
  | Some v => inr v
  | None => inl ValueError
  end.

Definition optional_variable (d : DataFrame) (k : option string)
  : result unit :=
  match k with
  | None => inr tt
  | Some name =>
      match column d name with
      | Some _ => inr tt
      | None => inl ValueError
      end
  end.

Definition cell_eqb (a b : cell) : bool :=
  match a, b with
  | CNum (Fin p), CNum (Fin q) => Qeq_bool p q
  | CStr s, CStr t => String.eqb s t
  | _, _ => false
  end.

Definition notnull (c : cell) : bool :=
  match c with
  | CNum NaN => false
  | _ => true
  end.

(** The distinct entries in order of first appearance. *)
Fixpoint unique (cs : list cell) : list cell :=
  match cs with
  | [] => []
  | c :: rest =>
      c :: List.filter (fun c' => negb (cell_eqb c c')) (unique rest)
  end.

Definition all_numeric (cs : list cell) : bool :=
  forallb (fun c => match c with CNum _ => true | CStr _ => false end) cs.

(** seaborn's category order: the distinct non-missing entries in order of
    appearance, sorted when the column is numeric. *)
Definition categorical_order (cs : list cell) : list cell :=
  let order := List.filter notnull (unique cs) in
  if all_numeric cs
  then map (fun q => CNum (Fin q))
           (sortQ (dropna (map (fun c => match c with
                                         | CNum v => v
                                         | CStr _ => NaN
                                         end) order)))
  else order.

Definition str_cell (c : cell) : string :=
  match c with
  | CNum v => str v
  | CStr s => s
  end.

(** The finite [y] values of the rows whose [x] entry is [c]. *)
Fixpoint group_values (c : cell) (xs : list cell) (ys : list pyfloat)
  : list Q :=
  match xs, ys with
  | x :: xs', Fin q :: ys' =>
      if cell_eqb c x then q :: group_values c xs' ys'
      else group_values c xs' ys'
  | _ :: xs', NaN :: ys' => group_values c xs' ys'
  | _, _ => []
  end.

(** The height of a bar: the mean of its group, NaN for an empty group. *)
Definition bar_height (c : cell) (xs : list cell) (ys : list pyfloat)
  : pyfloat :=
  match group_values c xs ys with
  | [] => NaN
  | g => Fin (qmean g)
  end.

(** One bar per category, at positions 0, 1, 2, ... *)
Definition bars (xs : list cell) (ys : list pyfloat) (color : string)
  : list artist :=
  map (fun '(i, c) => Rectangle (of_Z (Z.of_nat i)) (bar_height c xs ys) color)
      (enumerate (categorical_order xs)).

Definition with_labels (x y : string) (a : Axes) : Axes :=
  mkAxes (ax_figure a) (ax_artists a) (ax_title a) x y
         (ax_xticklabels a) (ax_xtick_rotation a) (ax_xtick_ha a)
         (ax_grid a).

Definition with_ticks (labels : list string) (a : Axes) : Axes :=
  mkAxes (ax_figure a) (ax_artists a) (ax_title a) (ax_xlabel a)
         (ax_ylabel a) labels 0%Q "center" (ax_grid a).

(** [sns.barplot(x=, y=, data=, color=, ax=)]: [x] is the category axis,
    [y] must be numeric; one bar per category with the mean of its [y]
    values; axis labels and category tick labels are set.  The error bars
    seaborn adds from a bootstrap are not drawn here. *)
Definition sns_barplot (x y : string) (data : loc) (color : string)
  (ax : loc) : M unit :=
  let* d := get_frame data in
  let* xs := lift (variable d x) in
  let* ys := lift (variable d y) in
  let* vs := lift (as_floats ys) in
  modify_axes ax (fun a =>
    with_ticks (map str_cell (categorical_order xs))
      (with_labels x y (add_artists (bars xs vs color) a))).

(** The rows in which neither entry is missing. *)
Fixpoint complete_rows (xs ys : list cell) : list (cell * cell) :=
  match xs, ys with
  | x :: xs', y :: ys' =>
      if notnull x && notnull y then (x, y) :: complete_rows xs' ys'
      else complete_rows xs' ys'
  | _, _ => []
  end.

(** [sns.scatterplot(x=, y=, data=, ax=, hue=, legend=, size=, sizes=)]:
    one marker per complete row; a legend when a column is mapped to
    colour or size. *)
Definition sns_scatterplot (x y : string) (data : loc) (ax : option loc)
  (hue : option string) (legend : string) (size : option string)
  (sizes : option (Q * Q)) : M unit :=
  let* d := get_frame data in
  let* xs := lift (variable d x) in
  let* ys := lift (variable d y) in
  let* _ := lift (optional_variable d hue) in
  let* _ := lift (optional_variable d size) in
  let* a := target ax in
  let hue_cells := match hue with Some h => column d h | None => None end in
  let size_cells := match size with Some h => column d h | None => None end in
  let markers :=
    PathCollection (complete_rows xs ys) "o"
                   (mkStyle hue_cells size_cells sizes) in
  let legends :=
    match hue, size with
    | None, None => []
    | _, _ => [Legend legend]
    end in
  modify_axes a (fun ax' =>
    with_labels x y (add_artists (markers :: legends) ax')).

(** The numeric rows in which neither value is missing. *)
Fixpoint complete_pairs (xs ys : list pyfloat) : list (Q * Q) :=
  match xs, ys with
  | Fin x :: xs', Fin y :: ys' => (x, y) :: complete_pairs xs' ys'
  | _ :: xs', _ :: ys' => complete_pairs xs' ys'
  | _, _ => []
  end.

(** Least-squares coefficients [(intercept, slope)] of a straight line
    through [pts].  When all [x] are equal the normal equations are
    singular and the solution of least norm is taken, as the
    pseudo-inverse does. *)
Definition ols_fit (pts : list (Q * Q)) : Q * Q :=
  let xs := map fst pts in
  let ys := map snd pts in
  let mx := qmean xs in
  let my := qmean ys in
  let sxx := qsum (map (fun p => (fst p - mx) * (fst p - mx)) pts)%Q in
  let sxy := qsum (map (fun p => (fst p - mx) * (snd p - my)) pts)%Q in
  if Qeq_bool sxx 0
  then (Qred (my / (1 + mx * mx)), Qred (my * mx / (1 + mx * mx)))
  else let b := (sxy / sxx)%Q in (Qred (my - b * mx), Qred b).

Definition predict (coef : Q * Q) (x : Q) : Q :=
  Qred (fst coef + snd coef * x).

(** The fitted line, drawn from the smallest to the largest [x]. *)
Definition regression_line (pts : list (Q * Q)) (color : string) : artist :=
  let xs := map fst pts in
  let lo := fold_left qmin xs (hd 0%Q xs) in
  let hi := fold_left qmax xs (hd 0%Q xs) in
  let coef := ols_fit pts in
  Line2D (Fin lo, Fin (predict coef lo)) (Fin hi, Fin (predict coef hi)) color.

(** What the fit adds to the axes: the line and, when asked for, its
    confidence band.  seaborn switches the fit off for fewer than two
    observations (rows in which neither entry is missing): nothing is
    computed and nothing drawn then, whatever the columns hold.  With two
    or more the fit needs numbers, and raises TypeError on a column that
    holds a string. *)
Definition fit_layer (xs ys : list cell) (ci : option nat) (color : string)
  : result (list artist) :=
  match complete_rows xs ys with
  | [] | [_] => inr []
  | _ =>
      match as_floats xs, as_floats ys with
      | inr xv, inr yv =>
          inr (regression_line (complete_pairs xv yv) color ::
               match ci with Some level => [Band level] | None => [] end)
      | inl e, _ => inl e
      | _, inl e => inl e
      end
  end.

(** [sns.regplot(x=, y=, data=, ax=, scatter=, ci=, line_kws={"color": c})].
    The arguments the module never passes stay at seaborn's defaults
    ([fit_reg=True], [order=1], [truncate=True], [dropna=True], no
    logistic, lowess, robust or log fit): a straight line fitted by least
    squares to the rows in which neither value is missing.  The columns
    are read with [data[x]], the axes are resolved, then [scatter] adds
    the markers, the fit its line and, for [ci], a confidence band of that
    level, and the axis labels are set last. *)
Definition sns_regplot (x y : string) (data : loc) (ax : option loc)
  (scatter : bool) (ci : option nat) (line_color : string) : M unit :=
  let* d := get_frame data in
  let* sx := lift (getitem d x) in
  let* sy := lift (getitem d y) in
  let xs := s_values sx in
  let ys := s_values sy in
  let* a := target ax in
  (if scatter
   then modify_axes a
          (add_artists [PathCollection (complete_rows xs ys) "o" plain_style])
   else ret tt) >>
  let* layer := lift (fit_layer xs ys ci line_color) in
  modify_axes a (fun ax' => with_labels x y (add_artists layer ax')).

(** *** scipy.stats *)

Section SciPy.

(** The correlation coefficient and its two-sided p-value for two samples
    of one length, at least two.  The p-value is the tail of a beta
    distribution and has no rational closed form, so the pair is taken
    from the numeric back end; so is what scipy answers for constant
    samples and for samples with a missing value, which differs between
    its releases. *)
Variable pearsonr_stat : list pyfloat -> list pyfloat -> pyfloat * pyfloat.

(** [pearsonr(x, y)]: ValueError for samples of different length or shorter
    than two, checked before anything is computed. *)
Definition pearsonr (x y : list cell) : result (pyfloat * pyfloat) :=
  match as_floats x, as_floats y with
  | inr xs, inr ys =>
      if negb (length xs =? length ys)%nat then inl ValueError
      else if (length xs <? 2)%nat then inl ValueError
      else inr (pearsonr_stat xs ys)
  | inl e, _ => inl e
  | _, inl e => inl e
  end.

End SciPy.

End Py.

(* ===================================================================== *)
(** ** The module [vizbeauty.common] *)
(* ===================================================================== *)

Module Common.
Import Num Data Stats Py.

(** [variable.f()] for a pandas reduction [f]. *)
Definition call (variable : loc) (f : Series -> result pyfloat) : M pyfloat :=
  let* s := get_series variable in lift (f s).

Definition banner : string :=
  "++++++++++++++++++++++++++++++++++++++++++++++++++++++".

Definition print_statistic (title : string) (variable : loc) : M unit :=
  print ("Statistics for " ++ title ++ ":") >>
  print banner >>
  let* mean := call variable Series_mean in
  print ("Mean: " ++ str (round mean 2)) >>
  let* median := call variable Series_median in
  print ("Median: " ++ str (round median 2)) >>
  let* std := call variable Series_std in
  print ("Standard Deviation: " ++ str (round std 2)) >>
  let* min := call variable Series_min in
  print ("Minimum: " ++ str (round min 2)) >>
  let* max := call variable Series_max in
  print ("Maximum: " ++ str (round max 2)) >>
  let* a := to_array variable in
  let* q1 := lift (np_percentile a 25) in
  print ("25th Percentile (Q1): " ++ str (round q1 2)) >>
  let* a := to_array variable in
  let* q3 := lift (np_percentile a 75) in
  print ("75th Percentile (Q3): " ++ str (round q3 2)) >>
  let* skew := call variable Series_skew in
  print ("Skewness: " ++ str (round skew 2)) >>
  let* kurtosis := call variable Series_kurtosis in
  print ("Kurtosis: " ++ str (round kurtosis 2)) >>
  let* s := get_series variable in
  print ("Count of Missing Values: " ++ str_Z (Z.of_nat (Series_isnull_sum s))) >>
  print banner >>
  print "".

(** [value + 0.2] and [round(value, 2)] on an entry of a column: a string
    entry raises TypeError. *)
Definition cell_float (value : cell) : result pyfloat :=
  match value with
  | CNum v => inr v
  | CStr _ => inl TypeError
  end.

Definition offset : pyfloat := Fin (1 # 5).

Definition beautybar (x y : string) (data data_avg : loc) (color : string)
  (ax : option loc) : M unit :=
  let* ax := target ax in
  sns_barplot x y data color ax >>
  let* column_y := frame_getitem data y in
  for_each (enumerate (s_values column_y)) (fun '(index, value) =>
    let* v := lift (cell_float value) in
    ax_text ax (of_Z (Z.of_nat index)) (fadd v offset) (str (round v 2))
            "center" "bottom" "black") >>
  let* avg_column := frame_getitem data_avg y in
  let* avg_variable := lift (Series_mean avg_column) in
  ax_axhline ax avg_variable "r" "--" >>
  ax_text ax (Fin (19 # 2)) (fadd avg_variable offset)
          ("Average: " ++ str (round avg_variable 2)) "left" "baseline" "red" >>
  ax_set_xlabel ax x >>
  ax_set_ylabel ax y >>
  let* labels := ax_get_xticklabels ax in
  ax_set_xticklabels ax labels 45 "right" >>
  ax_grid_on ax "y" "--" >>
  plt_tight_layout.

(** [x.name] in an f-string. *)
Definition name_of (x : loc) : M string :=
  let* s := get_series x in
  ret (match s_name s with Some n => n | None => "None"%string end).

Section Pearson.

Variable pearsonr_stat : list pyfloat -> list pyfloat -> pyfloat * pyfloat.

Definition pearson_correlation (x y : loc) : M unit :=
  let* xa := to_array x in
  let* ya := to_array y in
  let* rp := lift (pearsonr pearsonr_stat xa ya) in
  let correlation_coefficient := fst rp in
  let p_value := snd rp in
  let alpha := Fin (1 # 20) in
  print ("Pearson Correlation Coefficient: " ++ str correlation_coefficient) >>
  print ("P-value: " ++ str p_value) >>
  if flt p_value alpha
  then
    let* xn := name_of x in
    let* yn := name_of y in
    print ("There is a statistically significant correlation between "
           ++ xn ++ " and " ++ yn ++ ".")
  else
    let* xn := name_of x in
    let* yn := name_of y in
    print ("There is no statistically significant correlation between "
           ++ xn ++ " and " ++ yn ++ ".").

End Pearson.

Definition reg_scatter (x y : string) (data : loc) (hue : option string)
  (legend : string) (size : option string) (sizes : option (Q * Q))
  (ax : option loc) : M unit :=
  sns_scatterplot x y data ax hue legend size sizes >>
  sns_regplot x y data ax false None "black".

Definition visualize_hyperparameter (param_name : string)
  (param_values scores : loc) : M unit :=
  let* _ := plt_figure (10, 6)%Q in
  let* xs := to_array param_values in
  let* ys := to_array scores in
  plt_scatter xs ys "o" >>
  plt_title ("Effect of " ++ param_name ++ " on Model Performance") >>
  plt_xlabel param_name >>
  plt_ylabel "Mean Squared Error" >>
  plt_grid_on >>
  plt_show.

End Common.
(* ===================================================================== *)
(** ** Vocabulary of the statements *)
(* ===================================================================== *)

Module Spec.
Import Num Data Stats Py Common.

(** Objects that belong to the caller: sequences and frames. *)
Definition is_data (o : pyobj) : Prop :=
  match o with
  | OSeries _ | OFrame _ | OList _ => True
  | OAxes _ | OFigure _ => False
  end.

Definition holds_data (w : World) (l : loc) : Prop :=
  exists o, heap w !! l = Some o /\ is_data o.

(** The references an object keeps to other objects. *)
Definition refs (o : pyobj) : list loc :=
  match o with
  | OAxes a => [ax_figure a]
  | OFigure f => fig_axes f
  | OSeries _ | OFrame _ | OList _ => []
  end.

(** [footprint w w']: going from [w] to [w'], every data object is still
    there with the same content, no data object appeared, and every
    reference to a data object held in [w'] (by a heap object or by pyplot's
    figure list) was already held in [w]. *)
Record footprint (w w' : World) : Prop := mkFootprint {
  data_kept : forall l o, heap w !! l = Some o -> is_data o ->
                          heap w' !! l = Some o;
  data_not_created : forall l o, heap w' !! l = Some o -> is_data o ->
                                 heap w !! l = Some o;
  refs_not_added : forall l o r, heap w' !! l = Some o -> r ∈ refs o ->
                                 holds_data w' r ->
                                 exists o0, heap w !! l = Some o0 /\ r ∈ refs o0;
  figs_not_added : forall f, f ∈ figs w' -> holds_data w' f -> f ∈ figs w
}.

(** A computation that leaves the caller's data alone from any world. *)
Definition frame {A} (m : M A) : Prop := forall w, footprint w (fst (m w)).

(** The world with object [o] at [l]. *)
Definition put (w : World) (l : loc) (o : pyobj) : World :=
  mkWorld (<[l := o]> (heap w)) (stdout w) (figs w).

(** What is drawn on the Axes at [a]. *)
Definition artists_at (w : World) (a : loc) : list artist :=
  match heap w !! a with
  | Some (OAxes A) => ax_artists A
  | _ => []
  end.

(** What was drawn on [a] between [w0] and [w']. *)
Definition drawn (w0 w' : World) (a : loc) : list artist :=
  drop (length (artists_at w0 a)) (artists_at w' a).

(** The label [beautybar] writes for row [index] with value [v]. *)
Definition row_label (index : nat) (v : pyfloat) : artist :=
  Text (of_Z (Z.of_nat index)) (fadd v offset) (str (round v 2))
       "center" "bottom" "black".

Definition row_labels_from (i : nat) (vs : list pyfloat) : list artist :=
  map (fun '(index, v) => row_label index v) (enumerate_from i vs).

(** [data_avg[y].mean()] as a function of the frame. *)
Definition column_mean (d : DataFrame) (y : string) : result pyfloat :=
  match getitem d y with
  | inr s => Series_mean s
  | inl e => inl e
  end.

Definition average_line (m : pyfloat) : artist := HLine m "r" "--".

Definition average_text (m : pyfloat) : artist :=
  Text (Fin (19 # 2)) (fadd m offset) ("Average: " ++ str (round m 2))
       "left" "baseline" "red".

(** The Axes [A] once [beautybar] has drawn [arts] on it. *)
Definition finished_axes (x y : string) (ticks : list string)
  (arts : list artist) (A : Axes) : Axes :=
  mkAxes (ax_figure A) (ax_artists A ++ arts) (ax_title A) x y ticks
         45 "right" (Some ("y"%string, "--"%string)).

Definition one_more_pass (F : Figure) : Figure :=
  mkFigure (fig_size F) (fig_axes F) (S (fig_layout_passes F)) (fig_shown F).

(** [plt.tight_layout()] takes [w1] to [w'] with a pass on figure [f]. *)
Definition layout_pass (w1 w' : World) (f : loc) : Prop :=
  exists w2 F,
    plt_gcf w1 = (w2, inr f) /\ heap w2 !! f = Some (OFigure F) /\
    w' = put w2 f (OFigure (one_more_pass F)).

(** What a call with target [ax] has drawn on its target between the
    world [w] it started in and [w']. *)
Definition new_artists (ax : option loc) (w w' : World) : list artist :=
  match target ax w with
  | (w0, inr a) => drawn w0 w' a
  | (_, inl _) => []
  end.

Definition is_hline (x : artist) : bool :=
  match x with HLine _ _ _ => true | _ => false end.

(** The horizontal lines among [l]. *)
Definition hlines (l : list artist) : list artist := List.filter is_hline l.

(** pyplot's current figure, if there is one. *)
Definition current_figure (w : World) : option loc := last (figs w).

(** Layout passes a figure has had (0 for anything else). *)
Definition layout_passes (w : World) (f : loc) : nat :=
  match heap w !! f with
  | Some (OFigure F) => fig_layout_passes F
  | _ => 0%nat
  end.

(** The figure an Axes belongs to. *)
Definition owner (w : World) (a : loc) : option loc :=
  match heap w !! a with
  | Some (OAxes A) => Some (ax_figure A)
  | _ => None
  end.

(** [p < alpha] for a float [p]: false for NaN. *)
Definition below (p : pyfloat) (alpha : Q) : Prop :=
  match p with
  | Fin q => (q < alpha)%Q
  | NaN => False
  end.

(** The percentile as the specification words it: over the non-missing
    values only (what [np.nanpercentile] and [Series.quantile] compute),
    by the same interpolation. *)
Definition percentile_skipna (a : list cell) (q : Q) : result pyfloat :=
  match as_floats a with
  | inl e => inl e
  | inr vs =>
      match dropna vs with
      | [] => inr NaN
      | xs => inr (Fin (lerp_percentile (sortQ xs) q))
      end
  end.

(** The library calls [print_statistic] makes on the Series [s], in the
    order it makes them. *)
Definition statistics (s : Series) : list (result pyfloat) :=
  [ Series_mean s; Series_median s; Series_std s; Series_min s; Series_max s;
    np_percentile (s_values s) 25; np_percentile (s_values s) 75;
    Series_skew s; Series_kurtosis s ].

(** The exception of the first call that raised, if one did. *)
Fixpoint first_raised (rs : list (result pyfloat)) : option exn :=
  match rs with
  | [] => None
  | inl e :: _ => Some e
  | inr _ :: rest => first_raised rest
  end.

(** [x.name] as an f-string shows it. *)
Definition display_name (s : Series) : string :=
  match s_name s with
  | Some n => n
  | None => "None"%string
  end.

Definition significant_message (xn yn : string) : string :=
  ("There is a statistically significant correlation between "
   ++ xn ++ " and " ++ yn ++ ".")%string.

Definition not_significant_message (xn yn : string) : string :=
  ("There is no statistically significant correlation between "
   ++ xn ++ " and " ++ yn ++ ".")%string.

(** What [sns.scatterplot] draws for the columns [xs], [ys] of [d]. *)
Definition scatter_layer (d : DataFrame) (xs ys : list cell)
  (hue : option string) (legend : string) (size : option string)
  (sizes : option (Q * Q)) : list artist :=
  PathCollection (complete_rows xs ys) "o"
    (mkStyle (match hue with Some h => column d h | None => None end)
             (match size with Some h => column d h | None => None end)
             sizes)
  :: match hue, size with
     | None, None => []
     | _, _ => [Legend legend]
     end.

Definition is_line (x : artist) : bool :=
  match x with Line2D _ _ _ => true | _ => false end.



(** How many artists of [l] satisfy [p]. *)
Definition count (p : artist -> bool) (l : list artist) : nat :=
  length (List.filter p l).





(** Every figure pyplot manages is a Figure of the heap. *)
Definition figures_ok (w : World) : Prop :=
  Forall (fun f => exists F, heap w !! f = Some (OFigure F)) (figs w).

Definition shown (F : Figure) : Figure :=
  mkFigure (fig_size F) (fig_axes F) (fig_layout_passes F) true.

(** *** What the statements compare the code with

    The definitions below are written from what the specification says,
    with the Standard Library's arithmetic and lists (and [b64], the
    double a rational stands for): they share nothing with the models of
    [round], of [+] and of the libraries above. *)









(** A call of one of the five functions of the module. *)
Inductive api_call : Type :=
  | Call_print_statistic (title : string) (variable : loc)
  | Call_beautybar (x y : string) (data data_avg : loc) (color : string)
      (ax : option loc)
  | Call_pearson_correlation (x y : loc)
  | Call_reg_scatter (x y : string) (data : loc) (hue : option string)
      (legend : string) (size : option string) (sizes : option (Q * Q))
      (ax : option loc)
  | Call_visualize_hyperparameter (param_name : string)
      (param_values scores : loc).

Definition run_call
  (pearsonr_stat : list pyfloat -> list pyfloat -> pyfloat * pyfloat)
  (c : api_call) : M unit :=
  match c with
  | Call_print_statistic title variable => print_statistic title variable
  | Call_beautybar x y data data_avg color ax =>
      beautybar x y data data_avg color ax
  | Call_pearson_correlation x y => pearson_correlation pearsonr_stat x y
  | Call_reg_scatter x y data hue legend size sizes ax =>
      reg_scatter x y data hue legend size sizes ax
  | Call_visualize_hyperparameter param_name param_values scores =>
      visualize_hyperparameter param_name param_values scores
  end.

End Spec.

(* ===================================================================== *)
(** ** Concrete inputs *)
(* ===================================================================== *)

Module Examples.
Import Num Data Stats Py Common Spec.

Definition num (z : Z) : cell := CNum (of_Z z).

(** A numeric Series with one missing entry at the end. *)
Definition with_missing : Series :=
  mkSeries (Some "v"%string) [num 1; num 2; num 3; num 4; num 5; CNum NaN].

Definition world_with_missing : World :=
  mkWorld {[ 1%positive := OSeries with_missing ]} [] [].

Definition world_with_empty : World :=
  mkWorld {[ 1%positive := OSeries (mkSeries (Some "v"%string) []) ]} [] [].

(** A frame in which category "a" has two rows. *)
Definition sales : DataFrame :=
  [ ("x"%string, [CStr "a"; CStr "a"; CStr "b"]);
    ("y"%string, [num 1; num 3; num 5]) ].

Definition totals : DataFrame :=
  [ ("x"%string, [CStr "a"; CStr "b"]);
    ("y"%string, [num 2; num 5]) ].

Definition other : DataFrame :=
  [ ("x"%string, [CStr "c"; CStr "d"]);
    ("y"%string, [num 10; num 20]) ].

Definition world_with_frames : World :=
  mkWorld (<[ 1%positive := OFrame sales ]>
           (<[ 2%positive := OFrame totals ]>
            {[ 3%positive := OFrame other ]})) [] [].

(** The frames, an Axes (11) owned by figure 10, and another figure (20)
    that is pyplot's current one. *)
Definition world_with_two_figures : World :=
  mkWorld (<[ 1%positive := OFrame sales ]>
           (<[ 2%positive := OFrame totals ]>
            (<[ 10%positive := OFigure (mkFigure default_figsize [11%positive] 0 false) ]>
             (<[ 11%positive := OAxes (new_axes 10%positive) ]>
              {[ 20%positive := OFigure (mkFigure default_figsize [] 0 false) ]}))))
          [] [10%positive; 20%positive].

Definition measurements : DataFrame :=
  [ ("x"%string, [num 1; num 2; num 3; num 4]);
    ("y"%string, [num 2; num 4; num 5; num 8]) ].

Definition world_with_measurements : World :=
  mkWorld {[ 1%positive := OFrame measurements ]} [] [].

Definition tried : list cell := [num 10; num 20; num 30].
Definition errors : list cell := [num 3; num 1; num 2].

Definition world_with_lists : World :=
  mkWorld (<[ 1%positive := OList tried ]> {[ 2%positive := OList errors ]})
          [] [].

Definition doubled_x : Series :=
  mkSeries (Some "x"%string) [num 1; num 2; num 3; num 4; num 5].
Definition doubled_y : Series :=
  mkSeries (Some "y"%string) [num 2; num 4; num 6; num 8; num 10].

Definition world_with_pair : World :=
  mkWorld (<[ 1%positive := OSeries doubled_x ]>
           {[ 2%positive := OSeries doubled_y ]}) [] [].





(** What scipy returns for a perfectly correlated pair. *)
Definition perfect : list pyfloat -> list pyfloat -> pyfloat * pyfloat :=
  fun _ _ => (Fin 1, Fin 0).

End Examples.

(* ===================================================================== *)
(** ** Vocabulary of the further properties *)
(* ===================================================================== *)

Module More.
Import Num Data Stats Py Common Spec.

(** The world with [lines] printed after what was printed. *)
Definition printed (w : World) (lines : list string) : World :=
  mkWorld (heap w) (stdout w ++ lines) (figs w).

(** The first two lines of the report of [print_statistic]. *)
Definition report_head (title : string) : list string :=
  [ ("Statistics for " ++ title ++ ":")%string; banner ].

(** The labels of the nine statistics of the report, in its order. *)
Definition labels : list string :=
  [ "Mean: "; "Median: "; "Standard Deviation: "; "Minimum: "; "Maximum: ";
    "25th Percentile (Q1): "; "75th Percentile (Q3): "; "Skewness: ";
    "Kurtosis: " ]%string.



(** Why the first statistics call of [print_statistic] raises on what
    [variable] refers to, if it does: a Series that is not numeric
    (TypeError), or a list, an Axes or a Figure, which have no method
    [mean] (AttributeError). *)
Definition early_error (o : option pyobj) : option exn :=
  match o with
  | Some (OSeries s) =>
      match as_floats (s_values s) with
      | inl e => Some e
      | inr _ => None
      end
  | Some (OList _) | Some (OAxes _) | Some (OFigure _) => Some AttributeError
  | Some (OFrame _) | None => None
  end.

(** A computation that leaves the part [proj] of the world as it is,
    whatever the outcome. *)
Definition keeps {A B} (proj : World -> B) (m : M A) : Prop :=
  forall w, proj (fst (m w)) = proj w.

(** The plotting state: the heap and pyplot's figure list. *)
Definition plotting_state (w : World) : gmap loc pyobj * list loc :=
  (heap w, figs w).

Definition is_string (c : cell) : bool :=
  match c with CStr _ => true | CNum _ => false end.

(** The label that belongs over a bar: centred on it, 0.2 above its top,
    showing its height rounded to two decimals. *)
Definition label_of_bar (b : artist) : artist :=
  match b with
  | Rectangle x height _ =>
      Text x (fadd height offset) (str (round height 2))
           "center" "bottom" "black"
  | other => other
  end.

End More.

(* ===================================================================== *)
(** ** More concrete inputs *)
(* ===================================================================== *)

Module MoreExamples.
Import Num Data Stats Py Common Spec Examples More.

Definition short_y : Series :=
  mkSeries (Some "y"%string) [num 2; num 4].

(** Two Series of different length. *)
Definition world_with_uneven_pair : World :=
  mkWorld (<[ 1%positive := OSeries doubled_x ]>
           {[ 2%positive := OSeries short_y ]}) [] [].

(** A frame without a column "y". *)
Definition unlabelled : DataFrame :=
  [ ("x"%string, [CStr "a"; CStr "b"]);
    ("z"%string, [num 2; num 5]) ].

(** The frames and a figure (10) with two Axes (11 and 12). *)
Definition world_with_two_axes : World :=
  mkWorld (<[ 1%positive := OFrame sales ]>
           (<[ 2%positive := OFrame totals ]>
            (<[ 3%positive := OFrame unlabelled ]>
             (<[ 10%positive := OFigure (mkFigure default_figsize
                                   [11%positive; 12%positive] 0 false) ]>
              (<[ 11%positive := OAxes (new_axes 10%positive) ]>
               {[ 12%positive := OAxes (new_axes 10%positive) ]})))))
          [] [10%positive].

(** A frame with a single row whose [x] is a label. *)
Definition single_label : DataFrame :=
  [ ("x"%string, [CStr "a"]); ("y"%string, [num 2]) ].

Definition world_with_single_label : World :=
  mkWorld {[ 1%positive := OFrame single_label ]} [] [].

Definition world_with_uneven_lists : World :=
  mkWorld (<[ 1%positive := OList tried ]>
           {[ 2%positive := OList [num 3; num 1] ]}) [] [].

(** The two lists and an open figure (10) with no Axes. *)
Definition world_with_lists_and_figure : World :=
  mkWorld (<[ 1%positive := OList tried ]>
           (<[ 2%positive := OList errors ]>
            {[ 10%positive := OFigure (mkFigure default_figsize [] 0 false) ]}))
          [] [10%positive].

(** Two perfectly correlated lists (no Series, so no names). *)
Definition world_with_doubled_lists : World :=
  mkWorld (<[ 1%positive := OList (s_values doubled_x) ]>
           {[ 2%positive := OList (s_values doubled_y) ]}) [] [].

End MoreExamples.


(* ===================================================================== *)
(** ** Doubles: rounding and its error *)
(* ===================================================================== *)

Section Doubles.
Import Num Data Stats Py Common Spec.
Local Open Scope Q_scope.


(** Equal rationals stand for the same double. *)
Lemma b64_proper (q q' : Q) : q == q' -> b64 q = b64 q'.
Proof. intros H. unfold b64. by rewrite (Qred_complete _ _ H). Qed.







(** The numeric layer on inputs where binary and decimal arithmetic part:
    each line is what Python answers. *)
Lemma doubles_as_python :
  str (fadd (Fin (1 # 10)) (Fin (2 # 10))) = "0.30000000000000004"%string /\
  str (round (Fin (2675 # 1000)) 2) = "2.67"%string /\
  str (round (Fin (15 # 1000)) 2) = "0.01"%string /\
  str (round (Fin (125 # 1000)) 2) = "0.12"%string /\
  str (round (Fin (- 1 # 1000)) 2) = "-0.0"%string /\
  str (round (Fin 2) 2) = "2.0"%string /\
  str (Fin (1 # 100000)) = "1e-05"%string /\
  str (Fin (1 # 10000)) = "0.0001"%string /\
  str (Fin (inject_Z (10 ^ 15))) = "1000000000000000.0"%string /\
  str (Fin (inject_Z (10 ^ 16))) = "1e+16"%string /\
  fadd (Fin (inject_Z (10 ^ 16))) offset = Fin (inject_Z (10 ^ 16)) /\
  fadd (Fin 1) offset = Fin (b64 (6 # 5)).
Proof. vm_compute. repeat split; reflexivity. Qed.




End Doubles.

(* ===================================================================== *)
(** ** The caller's data is left alone *)
(* ===================================================================== *)

Section FrameRules.
Import Num Data Stats Py Common Spec.

Lemma footprint_refl w : footprint w w.
Proof. constructor; eauto. Qed.

Lemma footprint_trans w1 w2 w3 :
  footprint w1 w2 -> footprint w2 w3 -> footprint w1 w3.
Proof.
  intros [k1 c1 r1 f1] [k2 c2 r2 f2]. constructor.
  - eauto.
  - eauto.
  - intros l o r Hl Hr [d [Hd Hdata]].
    destruct (r2 l o r Hl Hr) as [o1 [Hl1 Hr1]]; [by exists d|].
    apply (r1 l o1 r Hl1 Hr1). exists d. eauto.
  - intros f Hf [d [Hd Hdata]].
    apply f1; [apply f2; [done | by exists d] |]. exists d. eauto.
Qed.

Lemma frame_ret {A} (a : A) : frame (ret a).
Proof. intros w. apply footprint_refl. Qed.

Lemma frame_raise {A} (e : exn) : frame (@raise A e).
Proof. intros w. apply footprint_refl. Qed.

Lemma frame_lift {A} (r : result A) : frame (lift r).
Proof. destruct r; [apply frame_raise | apply frame_ret]. Qed.

Lemma frame_bind {A B} (m : M A) (k : A -> M B) :
  frame m -> (forall a, frame (k a)) -> frame (bind m k).
Proof.
  intros Hm Hk w. unfold bind. specialize (Hm w).
  destruct (m w) as [w1 [e | a]]; simpl in *; [done|].
  eapply footprint_trans; [exact Hm | apply Hk].
Qed.

Lemma frame_for_each {A} (xs : list A) (body : A -> M unit) :
  (forall x, frame (body x)) -> frame (for_each xs body).
Proof.
  intros Hb. induction xs as [| x rest IH]; simpl.
  - apply frame_ret.
  - apply frame_bind; auto.
Qed.

Lemma frame_print s : frame (print s).
Proof. intros w. constructor; simpl; eauto. Qed.

Lemma frame_get_series l : frame (get_series l).
Proof.
  intros w. unfold get_series.
  destruct (heap w !! l) as [[]|]; apply footprint_refl.
Qed.

Lemma frame_get_frame l : frame (get_frame l).
Proof.
  intros w. unfold get_frame.
  destruct (heap w !! l) as [[]|]; apply footprint_refl.
Qed.

Lemma frame_get_axes l : frame (get_axes l).
Proof.
  intros w. unfold get_axes.
  destruct (heap w !! l) as [[]|]; apply footprint_refl.
Qed.

Lemma frame_get_figure l : frame (get_figure l).
Proof.
  intros w. unfold get_figure.
  destruct (heap w !! l) as [[]|]; apply footprint_refl.
Qed.

Lemma frame_to_array l : frame (to_array l).
Proof.
  intros w. unfold to_array.
  destruct (heap w !! l) as [[]|]; apply footprint_refl.
Qed.

(** Writing a plotting object over a plotting object, or at a free
    location, adds nothing as long as its references are not new ones to
    data. *)
Lemma footprint_store w l o :
  ~ is_data o ->
  ~ holds_data w l ->
  (forall r, r ∈ refs o -> holds_data w r ->
             exists o0, heap w !! l = Some o0 /\ r ∈ refs o0) ->
  footprint w (mkWorld (<[l := o]> (heap w)) (stdout w) (figs w)).
Proof.
  intros Ho Hl Hr.
  assert (Hsame : forall r, holds_data
            (mkWorld (<[l := o]> (heap w)) (stdout w) (figs w)) r ->
            holds_data w r).
  { intros r [d [Hd Hdata]]. simpl in Hd.
    destruct (decide (l = r)) as [-> | Hne].
    - rewrite lookup_insert_eq in Hd. by simplify_eq.
    - rewrite lookup_insert_ne in Hd by done. by exists d. }
  constructor; simpl.
  - intros l' o' Hl' Hdata. destruct (decide (l = l')) as [-> | Hne].
    + exfalso. apply Hl. by exists o'.
    + by rewrite lookup_insert_ne.
  - intros l' o' Hl' Hdata. destruct (decide (l = l')) as [-> | Hne].
    + rewrite lookup_insert_eq in Hl'. by simplify_eq.
    + by rewrite lookup_insert_ne in Hl'.
  - intros l' o' r Hl' Hin Hdata. apply Hsame in Hdata.
    destruct (decide (l = l')) as [-> | Hne].
    + rewrite lookup_insert_eq in Hl'. simplify_eq. by apply Hr.
    + rewrite lookup_insert_ne in Hl' by done. eauto.
  - intros f Hf Hdata. done.
Qed.

Lemma fresh_not_data w : ~ holds_data w (fresh (dom (heap w))).
Proof.
  intros [o [Ho _]].
  apply (is_fresh (dom (heap w))). apply elem_of_dom. eauto.
Qed.

Lemma frame_modify_axes ax f :
  (forall a, ax_figure (f a) = ax_figure a) -> frame (modify_axes ax f).
Proof.
  intros Hf w. unfold modify_axes, bind, get_axes, store.
  destruct (heap w !! ax) as [[]|] eqn:E; try apply footprint_refl.
  simpl. apply footprint_store.
  - simpl. tauto.
  - intros [o [Ho Hd]]. rewrite E in Ho. by simplify_eq.
  - intros r Hr _. eexists. split; [done|]. simpl in *. by rewrite <- Hf.
Qed.

Lemma frame_plt_figure size : frame (plt_figure size).
Proof.
  intros w. unfold plt_figure, bind, alloc. simpl.
  eapply footprint_trans.
  - apply (footprint_store w (fresh (dom (heap w)))
             (OFigure (mkFigure size [] 0 false))).
    + simpl. tauto.
    + apply fresh_not_data.
    + simpl. intros r Hr. by apply elem_of_nil in Hr.
  - constructor; simpl; eauto.
    intros f Hf [o [Ho Hd]]. apply elem_of_app in Hf as [Hf | Hf]; [done|].
    apply list_elem_of_singleton in Hf. subst f. simpl in Ho.
    rewrite lookup_insert_eq in Ho. by simplify_eq.
Qed.

Lemma frame_plt_gcf : frame plt_gcf.
Proof.
  intros w. unfold plt_gcf.
  destruct (last (figs w)); [apply footprint_refl | apply frame_plt_figure].
Qed.

Lemma frame_update_figure f (g : Figure -> Figure) :
  (forall fig, fig_axes (g fig) = fig_axes fig) ->
  frame (bind (get_figure f) (fun fig => store f (OFigure (g fig)))).
Proof.
  intros Hg w. unfold bind, get_figure, store.
  destruct (heap w !! f) as [[]|] eqn:E; try apply footprint_refl.
  simpl. apply footprint_store.
  - simpl. tauto.
  - intros [o [Ho Hd]]. rewrite E in Ho. by simplify_eq.
  - intros r Hr _. eexists. split; [done|]. simpl in *. by rewrite <- Hg.
Qed.

Lemma frame_plt_gca : frame plt_gca.
Proof.
  intros w. unfold plt_gca, bind.
  pose proof (frame_plt_gcf w) as H0.
  destruct (plt_gcf w) as [w1 [e | f]]; simpl in *; [done|].
  unfold get_figure.
  destruct (heap w1 !! f) as [[| | | | fig]|] eqn:E; simpl; try done.
  destruct (last (fig_axes fig)) as [a|]; simpl; [done|].
  eapply footprint_trans; [exact H0|].
  set (a := fresh (dom (heap w1))).
  assert (Ha : heap w1 !! a = None).
  { apply not_elem_of_dom. apply is_fresh. }
  eapply footprint_trans.
  - apply (footprint_store w1 a (OAxes (new_axes f))).
    + simpl. tauto.
    + apply fresh_not_data.
    + simpl. intros r Hr [o [Ho Hd]].
      apply list_elem_of_singleton in Hr. subst r.
      rewrite E in Ho. by simplify_eq.
  - match goal with |- footprint ?w2 _ =>
      apply (footprint_store w2 f) end; simpl.
    + tauto.
    + intros [o [Ho Hd]]. simpl in Ho.
      rewrite lookup_insert_ne in Ho by congruence.
      rewrite E in Ho. by simplify_eq.
    + intros r Hr [o [Ho Hd]]. simpl in Ho.
      apply elem_of_app in Hr as [Hr | Hr].
      * exists (OFigure fig). split; [|done].
        rewrite lookup_insert_ne by congruence. done.
      * apply list_elem_of_singleton in Hr. subst r.
        rewrite lookup_insert_eq in Ho. by simplify_eq.
Qed.

Lemma frame_target ax : frame (target ax).
Proof. destruct ax; [apply frame_ret | apply frame_plt_gca]. Qed.

Lemma frame_plt_tight_layout : frame plt_tight_layout.
Proof.
  unfold plt_tight_layout. apply frame_bind; [apply frame_plt_gcf|].
  intros f.
  apply (frame_update_figure f (fun fig =>
    mkFigure (fig_size fig) (fig_axes fig) (S (fig_layout_passes fig))
             (fig_shown fig))).
  reflexivity.
Qed.

Lemma frame_plt_show : frame plt_show.
Proof.
  intros w. unfold plt_show. apply frame_for_each. intros f.
  apply (frame_update_figure f (fun fig =>
    mkFigure (fig_size fig) (fig_axes fig) (fig_layout_passes fig) true)).
  reflexivity.
Qed.

End FrameRules.

Create HintDb frame.
#[export] Hint Resolve frame_ret frame_raise frame_lift frame_print
  frame_get_series frame_get_frame frame_get_axes frame_get_figure
  frame_to_array frame_plt_figure frame_plt_gcf frame_plt_gca frame_target
  frame_plt_tight_layout frame_plt_show : frame.

(** One step of a frame proof: split a sequence, enter a loop or a branch,
    or close a library call from the hint base. *)
Ltac frame_step :=
  match goal with
  | |- Spec.frame (Py.bind _ _) => apply frame_bind; [| intros ?]
  | |- Spec.frame (Py.for_each _ _) => apply frame_for_each; intros ?
  | |- Spec.frame (Py.modify_axes _ _) =>
      apply frame_modify_axes; intros []; reflexivity
  | |- Spec.frame (match ?x with _ => _ end) => destruct x
  | |- Spec.frame _ => solve [auto with frame]
  end.

Ltac frame_auto := repeat frame_step.

Section FrameOfCalls.
Import Num Data Stats Py Common Spec.

Lemma frame_ax_scatter ax xs ys marker : frame (ax_scatter ax xs ys marker).
Proof. unfold ax_scatter. frame_auto. Qed.

Lemma frame_sns_barplot x y data color ax :
  frame (sns_barplot x y data color ax).
Proof. unfold sns_barplot. frame_auto. Qed.

Lemma frame_sns_scatterplot x y data ax hue legend size sizes :
  frame (sns_scatterplot x y data ax hue legend size sizes).
Proof. unfold sns_scatterplot. frame_auto. Qed.

Lemma frame_sns_regplot x y data ax scatter ci color :
  frame (sns_regplot x y data ax scatter ci color).
Proof. unfold sns_regplot. frame_auto. Qed.

Lemma frame_print_statistic title variable :
  frame (print_statistic title variable).
Proof. unfold print_statistic, call. frame_auto. Qed.

Lemma frame_beautybar x y data data_avg color ax :
  frame (beautybar x y data data_avg color ax).
Proof.
  unfold beautybar, frame_getitem, ax_text, ax_axhline, ax_set_xlabel,
    ax_set_ylabel, ax_get_xticklabels, ax_set_xticklabels, ax_grid_on.
  pose proof frame_sns_barplot. frame_auto.
Qed.

Lemma frame_pearson_correlation stat x y :
  frame (pearson_correlation stat x y).
Proof. unfold pearson_correlation, name_of. frame_auto. Qed.

Lemma frame_reg_scatter x y data hue legend size sizes ax :
  frame (reg_scatter x y data hue legend size sizes ax).
Proof.
  unfold reg_scatter. apply frame_bind; [apply frame_sns_scatterplot|].
  intros _. apply frame_sns_regplot.
Qed.

Lemma frame_visualize_hyperparameter param_name param_values scores :
  frame (visualize_hyperparameter param_name param_values scores).
Proof.
  unfold visualize_hyperparameter, plt_scatter, plt_title, plt_xlabel,
    plt_ylabel, plt_grid_on, ax_set_title, ax_set_xlabel, ax_set_ylabel,
    ax_grid_on.
  pose proof frame_ax_scatter. frame_auto.
Qed.

(** C8.  Whatever function of the module is called and in whatever state,
    when the call is over (returned or raised) every Series, DataFrame and
    list of the caller is in the heap with the content it had, and every
    reference to one of them held by an Axes, a Figure or pyplot's figure
    list was already held before the call: the call keeps none. *)
Theorem calls_leave_inputs_alone :
  forall stat (c : api_call) (w : World),
    footprint w (fst (run_call stat c w)).
Proof.
  intros stat c w. destruct c; simpl.
  - apply frame_print_statistic.
  - apply frame_beautybar.
  - apply frame_pearson_correlation.
  - apply frame_reg_scatter.
  - apply frame_visualize_hyperparameter.
Qed.

End FrameOfCalls.
Section Execution.
Import Num Data Stats Py Common Spec.

Lemma bind_inr {A B} (m : M A) (k : A -> M B) w w' b :
  bind m k w = (w', inr b) ->
  exists a w1, m w = (w1, inr a) /\ k a w1 = (w', inr b).
Proof.
  unfold bind. destruct (m w) as [w1 [e | a]]; [discriminate|]. eauto.
Qed.

Lemma bind_ok {A B} (m : M A) (k : A -> M B) w w1 a :
  m w = (w1, inr a) -> bind m k w = k a w1.
Proof. unfold bind. by intros ->. Qed.

Lemma bind_raises {A B} (m : M A) (k : A -> M B) w w1 e :
  m w = (w1, inl e) -> bind m k w = (w1, inl e).
Proof. unfold bind. by intros ->. Qed.

Lemma lift_inr {A} (r : result A) w w' a :
  lift r w = (w', inr a) -> r = inr a /\ w' = w.
Proof. destruct r; simpl; unfold raise, ret; intros; by simplify_eq. Qed.

Lemma get_frame_inr l w w' d :
  get_frame l w = (w', inr d) -> heap w !! l = Some (OFrame d) /\ w' = w.
Proof.
  unfold get_frame. destruct (heap w !! l) as [[]|]; intros; by simplify_eq.
Qed.

Lemma get_axes_inr l w w' a :
  get_axes l w = (w', inr a) -> heap w !! l = Some (OAxes a) /\ w' = w.
Proof.
  unfold get_axes. destruct (heap w !! l) as [[]|]; intros; by simplify_eq.
Qed.

Lemma get_figure_inr l w w' f :
  get_figure l w = (w', inr f) -> heap w !! l = Some (OFigure f) /\ w' = w.
Proof.
  unfold get_figure. destruct (heap w !! l) as [[]|]; intros; by simplify_eq.
Qed.

Lemma get_series_inr l w w' s :
  get_series l w = (w', inr s) -> heap w !! l = Some (OSeries s) /\ w' = w.
Proof.
  unfold get_series. destruct (heap w !! l) as [[]|]; intros; by simplify_eq.
Qed.

Lemma put_put w l o1 o2 : put (put w l o1) l o2 = put w l o2.
Proof. unfold put. simpl. by rewrite insert_insert_eq. Qed.

Lemma put_same w l o : heap w !! l = Some o -> put w l o = w.
Proof. intros H. destruct w. unfold put. simpl in *. by rewrite insert_id. Qed.

Lemma heap_put_eq w l o : heap (put w l o) !! l = Some o.
Proof. simpl. apply lookup_insert_eq. Qed.

Lemma heap_put_ne w l l' o : l <> l' -> heap (put w l o) !! l' = heap w !! l'.
Proof. intros. simpl. by apply lookup_insert_ne. Qed.

Lemma modify_axes_inr ax f w w' u :
  modify_axes ax f w = (w', inr u) ->
  exists A, heap w !! ax = Some (OAxes A) /\ w' = put w ax (OAxes (f A)).
Proof.
  unfold modify_axes. intros H.
  apply bind_inr in H as (A & w1 & Hg & Hs).
  apply get_axes_inr in Hg as [Hg ->]. unfold store in Hs.
  exists A. split; [done|]. by simplify_eq.
Qed.

Lemma modify_axes_ok ax f w A :
  heap w !! ax = Some (OAxes A) ->
  modify_axes ax f w = (put w ax (OAxes (f A)), inr tt).
Proof.
  intros H. unfold modify_axes, bind, get_axes. by rewrite H.
Qed.

Lemma frame_getitem_inr data k w w' s :
  frame_getitem data k w = (w', inr s) ->
  exists d, heap w !! data = Some (OFrame d) /\ getitem d k = inr s /\ w' = w.
Proof.
  unfold frame_getitem. intros H.
  apply bind_inr in H as (d & w1 & Hg & Hl).
  apply get_frame_inr in Hg as [Hg ->].
  apply lift_inr in Hl as [Hl ->]. eauto.
Qed.

Lemma variable_inr d k v : variable d k = inr v -> column d k = Some v.
Proof. unfold variable. destruct (column d k); intros; by simplify_eq. Qed.

Lemma getitem_inr d k s :
  getitem d k = inr s ->
  exists v, column d k = Some v /\ s = mkSeries (Some k) v.
Proof. unfold getitem. destruct (column d k); intros; simplify_eq; eauto. Qed.

Lemma sns_barplot_inr x y data color a w w' u :
  sns_barplot x y data color a w = (w', inr u) ->
  exists d xs ys vs A,
    heap w !! data = Some (OFrame d) /\ column d x = Some xs /\
    column d y = Some ys /\ as_floats ys = inr vs /\
    heap w !! a = Some (OAxes A) /\
    w' = put w a (OAxes (with_ticks (map str_cell (categorical_order xs))
                           (with_labels x y (add_artists (bars xs vs color) A)))).
Proof.
  unfold sns_barplot. intros H.
  apply bind_inr in H as (d & w1 & Hd & H). apply get_frame_inr in Hd as [Hd ->].
  apply bind_inr in H as (xs & w1 & Hx & H). apply lift_inr in Hx as [Hx ->].
  apply bind_inr in H as (ys & w1 & Hy & H). apply lift_inr in Hy as [Hy ->].
  apply bind_inr in H as (vs & w1 & Hv & H). apply lift_inr in Hv as [Hv ->].
  apply modify_axes_inr in H as (A & HA & ->).
  apply variable_inr in Hx, Hy.
  exists d, xs, ys, vs, A. done.
Qed.

(** The loop of [beautybar] over a numeric column: one label per row. *)
Lemma label_loop a cs : forall i w A vs,
  as_floats cs = inr vs ->
  heap w !! a = Some (OAxes A) ->
  for_each (enumerate_from i cs) (fun '(index, value) =>
    let* v := lift (cell_float value) in
    ax_text a (of_Z (Z.of_nat index)) (fadd v offset) (str (round v 2))
            "center" "bottom" "black") w
  = (put w a (OAxes (add_artists (row_labels_from i vs) A)), inr tt).
Proof.
  induction cs as [| c rest IH]; intros i w A vs Hvs HA; simpl in *.
  - simplify_eq. unfold ret. f_equal. symmetry. apply put_same.
    rewrite HA. do 2 f_equal. destruct A. unfold add_artists. simpl.
    by rewrite app_nil_r.
  - destruct c as [v | s]; [|discriminate].
    destruct (as_floats rest) as [e | vs'] eqn:E; [discriminate|].
    simplify_eq. unfold bind at 1. simpl. unfold bind at 1. simpl.
    unfold ax_text. rewrite (modify_axes_ok _ _ _ A HA).
    rewrite (IH (S i) _ (add_artists [row_label i v] A) vs' eq_refl);
      [| apply heap_put_eq].
    rewrite put_put. do 3 f_equal. destruct A. unfold add_artists. simpl.
    by rewrite <- app_assoc.
Qed.

End Execution.
Section Beautybar.
Import Num Data Stats Py Common Spec.

Lemma plt_tight_layout_inr w w' u :
  plt_tight_layout w = (w', inr u) -> exists f, layout_pass w w' f.
Proof.
  unfold plt_tight_layout. intros H.
  apply bind_inr in H as (f & w2 & Hf & H).
  apply bind_inr in H as (F & w3 & HF & H).
  apply get_figure_inr in HF as [HF ->]. unfold store in H.
  exists f, w2, F. split; [done|]. split; [done|]. by simplify_eq.
Qed.

Lemma column_mean_inr d y s m :
  getitem d y = inr s -> Series_mean s = inr m -> column_mean d y = inr m.
Proof. unfold column_mean. by intros ->. Qed.

(** What a call of [beautybar] that returns has done. *)
Lemma beautybar_returns x y data data_avg color ax w w' u :
  beautybar x y data data_avg color ax w = (w', inr u) ->
  exists w0 a A d xs ys vs davg m f,
    target ax w = (w0, inr a) /\
    heap w0 !! a = Some (OAxes A) /\
    heap w0 !! data = Some (OFrame d) /\
    column d x = Some xs /\ column d y = Some ys /\ as_floats ys = inr vs /\
    heap w0 !! data_avg = Some (OFrame davg) /\
    column_mean davg y = inr m /\
    layout_pass
      (put w0 a (OAxes (finished_axes x y
                          (map str_cell (categorical_order xs))
                          (bars xs vs color ++ row_labels_from 0 vs ++
                           [average_line m; average_text m]) A)))
      w' f.
Proof.
  unfold beautybar. intros H.
  apply bind_inr in H as (a & w0 & Ht & H).
  apply bind_inr in H as ([] & w1 & Hbar & H).
  apply sns_barplot_inr in Hbar as (d & xs & ys & vs & A & Hd & Hx & Hy & Hv & HA & ->).
  assert (Hne : a <> data) by (intros ->; rewrite Hd in HA; discriminate).
  apply bind_inr in H as (col & w1 & Hcol & H).
  apply frame_getitem_inr in Hcol as (d' & Hd' & Hcol & ->).
  rewrite heap_put_ne in Hd' by done. rewrite Hd in Hd'.
  injection Hd' as <-.
  apply getitem_inr in Hcol as (ys' & Hy' & ->). rewrite Hy in Hy'.
  injection Hy' as <-.
  simpl in H. unfold enumerate in H.
  apply bind_inr in H as ([] & w1 & Hloop & H).
  erewrite label_loop in Hloop; [| exact Hv | apply heap_put_eq].
  injection Hloop as <-. rewrite put_put in H.
  apply bind_inr in H as (avgcol & w1 & Havg & H).
  apply frame_getitem_inr in Havg as (davg & Hdavg & Havg & ->).
  apply bind_inr in H as (m & w1 & Hm & H). apply lift_inr in Hm as [Hm ->].
  assert (Hne' : a <> data_avg).
  { intros ->. rewrite heap_put_eq in Hdavg. discriminate. }
  rewrite heap_put_ne in Hdavg by done.
  unfold ax_axhline, ax_text, ax_set_xlabel, ax_set_ylabel,
    ax_get_xticklabels, ax_set_xticklabels, ax_grid_on in H.
  repeat (erewrite bind_ok in H;
          [| apply modify_axes_ok; apply heap_put_eq]; rewrite put_put in H).
  erewrite bind_ok in H; cycle 1.
  { unfold bind, get_axes. rewrite heap_put_eq. reflexivity. }
  repeat (erewrite bind_ok in H;
          [| apply modify_axes_ok; apply heap_put_eq]; rewrite put_put in H).
  apply plt_tight_layout_inr in H as [f Hf].
  exists w0, a, A, d, xs, ys, vs, davg, m, f.
  repeat split; try done.
  - eapply column_mean_inr; eauto.
  - unfold finished_axes, average_line, average_text.
    cbn [ax_figure ax_artists ax_title ax_xlabel ax_ylabel ax_xticklabels
         ax_xtick_rotation ax_xtick_ha ax_grid add_artists with_labels
         with_ticks] in Hf.
    rewrite <- !app_assoc in Hf. exact Hf.
Qed.

End Beautybar.
Section BeautybarClaims.
Import Num Data Stats Py Common Spec.

Lemma plt_gcf_inr w w2 f :
  plt_gcf w = (w2, inr f) ->
  (last (figs w) = Some f /\ w2 = w) \/
  (last (figs w) = None /\ f = fresh (dom (heap w)) /\
   w2 = mkWorld (<[f := OFigure (mkFigure default_figsize [] 0 false)]> (heap w))
                (stdout w) (figs w ++ [f])).
Proof.
  unfold plt_gcf. destruct (last (figs w)) as [f'|].
  - intros H. left. by simplify_eq.
  - unfold plt_figure, bind, alloc. simpl. intros H. right. by simplify_eq.
Qed.

Lemma fresh_lookup w o l : heap w !! l = Some o -> l <> fresh (dom (heap w)).
Proof.
  intros H ->. apply (is_fresh (dom (heap w))). apply elem_of_dom. eauto.
Qed.

(** A layout pass leaves every Axes as it is. *)
Lemma layout_pass_axes w1 w' f a A :
  layout_pass w1 w' f -> heap w1 !! a = Some (OAxes A) ->
  heap w' !! a = Some (OAxes A).
Proof.
  intros (w2 & F & Hgcf & HF & ->) Ha.
  assert (Ha2 : heap w2 !! a = Some (OAxes A)).
  { apply plt_gcf_inr in Hgcf as [[_ ->] | (_ & -> & ->)]; [done|].
    simpl. rewrite lookup_insert_ne; [done|].
    symmetry. eapply fresh_lookup. exact Ha. }
  rewrite heap_put_ne; [done|]. intros ->. rewrite HF in Ha2. discriminate.
Qed.

Lemma drawn_put w0 w' a A arts :
  heap w0 !! a = Some (OAxes A) ->
  artists_at w' a = ax_artists A ++ arts ->
  drawn w0 w' a = arts.
Proof.
  intros H0 H'. unfold drawn, artists_at at 1. rewrite H0, H'.
  by rewrite drop_app_length.
Qed.

(** What a call of [beautybar] that returns has drawn: the bars, one label
    per row of [data], the line at the mean of [data_avg[y]] and its
    caption. *)
Lemma beautybar_draws x y data data_avg color ax w w' u :
  beautybar x y data data_avg color ax w = (w', inr u) ->
  exists d davg xs ys vs m,
    heap w !! data = Some (OFrame d) /\
    heap w !! data_avg = Some (OFrame davg) /\
    column d x = Some xs /\ column d y = Some ys /\ as_floats ys = inr vs /\
    column_mean davg y = inr m /\
    new_artists ax w w' =
      bars xs vs color ++ row_labels_from 0 vs ++
      [average_line m; average_text m].
Proof.
  intros H.
  apply beautybar_returns in H
    as (w0 & a & A & d & xs & ys & vs & davg & m & f &
        Ht & HA & Hd & Hx & Hy & Hv & Hdavg & Hm & Hf).
  pose proof (frame_target ax w) as Hfp. rewrite Ht in Hfp. simpl in Hfp.
  exists d, davg, xs, ys, vs, m. repeat split; try done.
  - eapply (data_not_created _ _ Hfp); [exact Hd | done].
  - eapply (data_not_created _ _ Hfp); [exact Hdavg | done].
  - unfold new_artists. rewrite Ht. eapply drawn_put; [exact HA|].
    unfold artists_at.
    erewrite layout_pass_axes; [| exact Hf | apply heap_put_eq]. done.
Qed.

Lemma hlines_bars xs vs color : hlines (bars xs vs color) = [].
Proof.
  unfold bars, enumerate. generalize 0%nat (categorical_order xs).
  intros i l. revert i. induction l as [| c l IH]; intros i; simpl; [done|].
  apply IH.
Qed.

Lemma hlines_row_labels vs : forall i, hlines (row_labels_from i vs) = [].
Proof.
  induction vs as [| v vs IH]; intros i; simpl; [done|]. apply IH.
Qed.

Lemma hlines_app l1 l2 : hlines (l1 ++ l2) = hlines l1 ++ hlines l2.
Proof. apply List.filter_app. Qed.



(** C10.  A call of [beautybar] on an explicit target [a] that returns has
    made its layout pass on pyplot's current figure [f] (the last figure
    pyplot manages, or a figure pyplot creates when it manages none, which
    changes pyplot's figure list), and not on the figure that owns [a]
    when that is another one: there the number of passes is unchanged. *)
Theorem layout_pass_on_current_figure :
  forall x y color data data_avg a w w',
    beautybar x y data data_avg color (Some a) w = (w', inr tt) ->
    exists f,
      current_figure w' = Some f /\
      (current_figure w = Some f \/
       (current_figure w = None /\ heap w !! f = None /\
        figs w' = figs w ++ [f])) /\
      layout_passes w' f = S (layout_passes w f) /\
      (forall fa, owner w a = Some fa -> fa <> f ->
                  layout_passes w' fa = layout_passes w fa).
Proof.
  intros x y color data data_avg a w w' H.
  apply beautybar_returns in H
    as (w0 & a' & A & d & xs & ys & vs & davg & m & f &
        Ht & HA & _ & _ & _ & _ & _ & _ & Hf).
  simpl in Ht. unfold ret in Ht. injection Ht as <- <-.
  destruct Hf as (w2 & F & Hgcf & HF & ->).
  assert (Hfa : f <> a).
  { intros ->. apply plt_gcf_inr in Hgcf as [[_ ->] | (_ & Hfr & ->)].
    - rewrite heap_put_eq in HF. discriminate.
    - simpl in Hfr. eapply (fresh_lookup (put w a _)); [|exact Hfr].
      apply heap_put_eq. }
  exists f. unfold current_figure, layout_passes, owner.
  apply plt_gcf_inr in Hgcf as [[Hl ->] | (Hl & Hfr & ->)]; simpl in *.
  - rewrite lookup_insert_ne in HF by done.
    rewrite lookup_insert_eq, HF. simpl.
    split; [done|]. split; [by left|]. split; [done|].
    intros fa Hown Hne. rewrite HA in Hown. injection Hown as <-.
    rewrite lookup_insert_ne by done.
    destruct (decide (a = ax_figure A)) as [Heq | Hna].
    + rewrite <- Heq. rewrite lookup_insert_eq, HA. done.
    + rewrite lookup_insert_ne by done. done.
  - rewrite lookup_insert_eq in HF. injection HF as <-.
    rewrite lookup_insert_eq. simpl.
    assert (Hnone : heap w !! f = None).
    { rewrite Hfr. apply not_elem_of_dom.
      intros Hin. apply (is_fresh (dom (<[a:=OAxes (finished_axes x y
        (map str_cell (categorical_order xs))
        (bars xs vs color ++ row_labels_from 0 vs ++
         [average_line m; average_text m]) A)]> (heap w)))).
      rewrite dom_insert_L in Hin |- *. apply elem_of_union_r. exact Hin. }
    rewrite Hnone.
    split; [apply last_snoc|]. split; [by right|]. split; [done|].
    intros fa Hown Hne. rewrite HA in Hown. injection Hown as <-.
    rewrite lookup_insert_ne by done.
    destruct (decide (a = ax_figure A)) as [Heq | Hna].
    + rewrite <- Heq. rewrite lookup_insert_ne by done.
      rewrite lookup_insert_eq, HA. done.
    + rewrite !lookup_insert_ne by done. done.
Qed.

End BeautybarClaims.
Section ConsoleSteps.
Import Num Data Stats Py Common Spec.

Lemma as_floats_non_numeric cs :
  all_numeric cs = false -> as_floats cs = inl TypeError.
Proof.
  induction cs as [| [v | s] rest IH]; simpl; intros H; try done.
  by rewrite IH.
Qed.

Lemma reduce_raises f s e :
  as_floats (s_values s) = inl e -> reduce f s = inl e.
Proof. unfold reduce. by intros ->. Qed.

Lemma reduce_returns f s vs :
  as_floats (s_values s) = inr vs -> reduce f s = inr (f (dropna vs)).
Proof. unfold reduce. by intros ->. Qed.

Lemma print_ok line w :
  print line w = (mkWorld (heap w) (stdout w ++ [line]) (figs w), inr tt).
Proof. reflexivity. Qed.

Lemma call_ok variable f s a w :
  heap w !! variable = Some (OSeries s) -> f s = inr a ->
  call variable f w = (w, inr a).
Proof.
  intros H Hf. unfold call, bind, get_series. rewrite H, Hf. reflexivity.
Qed.

Lemma call_raises variable f s e w :
  heap w !! variable = Some (OSeries s) -> f s = inl e ->
  call variable f w = (w, inl e).
Proof.
  intros H Hf. unfold call, bind, get_series. rewrite H, Hf. reflexivity.
Qed.

Lemma to_array_series l s w :
  heap w !! l = Some (OSeries s) -> to_array l w = (w, inr (s_values s)).
Proof. intros H. unfold to_array. by rewrite H. Qed.

Lemma get_series_ok l s w :
  heap w !! l = Some (OSeries s) -> get_series l w = (w, inr s).
Proof. intros H. unfold get_series. by rewrite H. Qed.

Lemma name_of_ok l s w :
  heap w !! l = Some (OSeries s) -> name_of l w = (w, inr (display_name s)).
Proof.
  intros H. unfold name_of, bind, get_series. rewrite H. reflexivity.
Qed.

Lemma lift_ok {A} (r : result A) a w : r = inr a -> lift r w = (w, inr a).
Proof. by intros ->. Qed.

Lemma lift_raises {A} (r : result A) e w : r = inl e -> lift r w = (w, inl e).
Proof. by intros ->. Qed.

End ConsoleSteps.

(** One statement of a console function, run in a world whose heap is
    known at the locations read; the facts about the library calls are
    taken from the context. *)
Ltac run_statement :=
  first
    [ erewrite bind_ok by apply print_ok
    | erewrite bind_ok by
        (eapply call_ok; [cbn [Py.heap]; eassumption | eassumption])
    | erewrite bind_ok by
        (eapply to_array_series; cbn [Py.heap]; eassumption)
    | erewrite bind_ok by
        (eapply get_series_ok; cbn [Py.heap]; eassumption)
    | erewrite bind_ok by
        (eapply name_of_ok; cbn [Py.heap]; eassumption)
    | erewrite bind_ok by (apply lift_ok; eassumption)
    | erewrite bind_raises by
        (eapply call_raises; [cbn [Py.heap]; eassumption | eassumption])
    | erewrite bind_raises by (apply lift_raises; eassumption) ];
  cbn [Py.heap Py.stdout Py.figs].

Section ConsoleClaims.
Import Num Data Stats Py Common Spec.

(** [print_statistic] has no handler: it raises exactly when one of the
    library calls raises, with the exception of the first that does. *)
Lemma print_statistic_outcome title variable s w :
  heap w !! variable = Some (OSeries s) ->
  snd (print_statistic title variable w) =
    match first_raised (statistics s) with
    | Some e => inl e
    | None => inr tt
    end.
Proof.
  intros H. unfold print_statistic, statistics.
  destruct (as_floats (s_values s)) as [e | vs] eqn:E.
  - assert (Hmean : Series_mean s = inl e) by (by apply reduce_raises).
    rewrite Hmean. repeat run_statement. reflexivity.
  - pose proof (reduce_returns _ _ _ E : Series_mean s = inr _) as Hmean.
    pose proof (reduce_returns _ _ _ E : Series_median s = inr _) as Hmed.
    pose proof (reduce_returns _ _ _ E : Series_std s = inr _) as Hstd.
    pose proof (reduce_returns _ _ _ E : Series_min s = inr _) as Hmin.
    pose proof (reduce_returns _ _ _ E : Series_max s = inr _) as Hmax.
    pose proof (reduce_returns _ _ _ E : Series_skew s = inr _) as Hskew.
    pose proof (reduce_returns _ _ _ E : Series_kurtosis s = inr _) as Hkurt.
    rewrite Hmean, Hmed, Hstd, Hmin, Hmax, Hskew, Hkurt.
    destruct vs as [| v vs].
    + assert (Hq : forall q, np_percentile (s_values s) q = inl IndexError).
      { intros q. unfold np_percentile. by rewrite E. }
      rewrite !Hq. pose proof (Hq 25%Q) as Hq1.
      repeat run_statement. reflexivity.
    + assert (Hq : forall q, exists r, np_percentile (s_values s) q = inr r).
      { intros q. unfold np_percentile. rewrite E.
        destruct (has_nan (v :: vs)); eauto. }
      destruct (Hq 25%Q) as [q1 Hq1]. destruct (Hq 75%Q) as [q3 Hq3].
      rewrite Hq1, Hq3. repeat run_statement. reflexivity.
Qed.

(** C7.  On a Series that is empty or holds an entry that is not a number,
    one of the statistics calls raises, and [print_statistic] ends with
    that very exception: it is neither caught nor replaced. *)
Theorem print_statistic_propagates :
  forall title variable s w,
    heap w !! variable = Some (OSeries s) ->
    s_values s = [] \/ all_numeric (s_values s) = false ->
    exists e,
      first_raised (statistics s) = Some e /\
      snd (print_statistic title variable w) = inl e.
Proof.
  intros title variable s w H Hbad.
  rewrite (print_statistic_outcome _ _ _ _ H).
  assert (Hr : exists e, first_raised (statistics s) = Some e).
  { unfold statistics. destruct Hbad as [Hnil | Hstr].
    - exists IndexError. unfold Series_mean, Series_median, Series_std,
        Series_min, Series_max, reduce, np_percentile. rewrite Hnil. done.
    - exists TypeError. unfold Series_mean.
      rewrite (reduce_raises _ _ _ (as_floats_non_numeric _ Hstr)). done. }
  destruct Hr as [e He]. exists e. by rewrite He.
Qed.

Lemma flt_below p alpha : flt p (Fin alpha) = true <-> below p alpha.
Proof.
  destruct p as [q|]; simpl; [|split; [discriminate | done]].
  rewrite negb_true_iff. split.
  - intros Hle. apply Qnot_le_lt. intros Hc.
    apply Qle_bool_iff in Hc. congruence.
  - intros Hlt. destruct (Qle_bool alpha q) eqn:E; [|done].
    apply Qle_bool_iff in E. exfalso. by apply (Qlt_not_le _ _ Hlt).
Qed.

Lemma messages_differ xn yn :
  significant_message xn yn <> not_significant_message xn yn.
Proof.
  unfold significant_message, not_significant_message.
  cbn [String.append]. intros H. inversion H.
Qed.

(** C3.  When scipy returns the pair [(r, p)] for two Series, the call
    prints the coefficient, the p-value and one verdict naming the two
    Series: the significant one exactly when [p < 0.05], the other one
    exactly when not (so also for [p = 0.05] and for a NaN p-value). *)
Theorem pearson_verdict :
  forall stat x y sx sy r p w,
    heap w !! x = Some (OSeries sx) ->
    heap w !! y = Some (OSeries sy) ->
    pearsonr stat (s_values sx) (s_values sy) = inr (r, p) ->
    exists verdict,
      pearson_correlation stat x y w =
        (mkWorld (heap w)
                 (stdout w ++
                  [("Pearson Correlation Coefficient: " ++ str r)%string;
                   ("P-value: " ++ str p)%string; verdict])
                 (figs w), inr tt) /\
      (verdict = significant_message (display_name sx) (display_name sy)
         <-> below p (1 # 20)) /\
      (verdict = not_significant_message (display_name sx) (display_name sy)
         <-> ~ below p (1 # 20)) /\
      (p = Fin (1 # 20) ->
       verdict = not_significant_message (display_name sx) (display_name sy)).
Proof.
  intros stat x y sx sy r p w Hx Hy Hr.
  pose proof (flt_below p (1 # 20)) as Hb.
  unfold pearson_correlation. do 3 run_statement. cbn [fst snd].
  do 2 run_statement.
  destruct (flt p (Fin (1 # 20))) eqn:E; do 2 run_statement;
    rewrite print_ok; cbn [heap stdout figs]; rewrite <- !app_assoc;
    cbn [app].
  - assert (Hbel : below p (1 # 20)) by (by apply Hb).
    eexists. split; [reflexivity|].
    fold (significant_message (display_name sx) (display_name sy)).
    split; [| split].
    + tauto.
    + split; [| tauto]. intros Hc. by apply messages_differ in Hc.
    + intros ->. simpl in Hbel. by apply Qlt_irrefl in Hbel.
  - assert (Hnb : ~ below p (1 # 20)).
    { intros Hc. apply Hb in Hc. congruence. }
    eexists. split; [reflexivity|].
    fold (not_significant_message (display_name sx) (display_name sy)).
    split; [| split].
    + split; [| tauto]. intros Hc. symmetry in Hc.
      by apply messages_differ in Hc.
    + tauto.
    + done.
Qed.

End ConsoleClaims.
Section LeastSquares.
Import Num Data Stats Py Common Spec.
Local Open Scope Q_scope.



















End LeastSquares.
Section RegScatter.
Import Num Data Stats Py Common Spec.

(** After [plt.gca()] the axes returned is the current one. *)
Lemma plt_gca_post w w0 a :
  plt_gca w = (w0, inr a) ->
  exists f F,
    last (figs w0) = Some f /\ heap w0 !! f = Some (OFigure F) /\
    last (fig_axes F) = Some a.
Proof.
  unfold plt_gca. intros H.
  apply bind_inr in H as (f & w1 & Hgcf & H).
  apply bind_inr in H as (F & w2 & HF & H).
  apply get_figure_inr in HF as [HF ->].
  assert (Hlast : last (figs w1) = Some f).
  { apply plt_gcf_inr in Hgcf as [[Hl ->] | (_ & _ & ->)]; [done|].
    simpl. apply last_snoc. }
  destruct (last (fig_axes F)) as [a' |] eqn:El.
  - unfold ret in H. injection H as <- <-. exists f, F. done.
  - apply bind_inr in H as (a' & w2 & Ha & H).
    apply bind_inr in H as ([] & w3 & Hs & H).
    unfold ret in H. injection H as <- <-.
    unfold alloc in Ha. injection Ha as <- <-.
    unfold store in Hs. injection Hs as <-. simpl.
    eexists f, _. split; [done|]. split; [apply lookup_insert_eq|].
    simpl. apply last_snoc.
Qed.

(** Drawing on the target does not change what the target is. *)
Lemma target_again ax w w0 a A A' :
  target ax w = (w0, inr a) ->
  heap w0 !! a = Some (OAxes A) ->
  target ax (put w0 a (OAxes A')) = (put w0 a (OAxes A'), inr a).
Proof.
  destruct ax as [a0 |]; simpl.
  - unfold ret. intros H _. by injection H as <- <-.
  - intros H HA. apply plt_gca_post in H as (f & F & Hl & HF & Hla).
    assert (Hne : a <> f) by (intros ->; rewrite HF in HA; discriminate).
    unfold plt_gca, bind, plt_gcf, get_figure. simpl. rewrite Hl.
    simpl. rewrite lookup_insert_ne by done. rewrite HF, Hla. done.
Qed.

Lemma sns_scatterplot_inr x y data ax hue legend size sizes w w' u :
  sns_scatterplot x y data ax hue legend size sizes w = (w', inr u) ->
  exists d xs ys w0 a A,
    heap w !! data = Some (OFrame d) /\ column d x = Some xs /\
    column d y = Some ys /\
    target ax w = (w0, inr a) /\ heap w0 !! a = Some (OAxes A) /\
    w' = put w0 a (OAxes (with_labels x y
           (add_artists (scatter_layer d xs ys hue legend size sizes) A))).
Proof.
  unfold sns_scatterplot. intros H.
  apply bind_inr in H as (d & w1 & Hd & H). apply get_frame_inr in Hd as [Hd ->].
  apply bind_inr in H as (xs & w1 & Hx & H). apply lift_inr in Hx as [Hx ->].
  apply bind_inr in H as (ys & w1 & Hy & H). apply lift_inr in Hy as [Hy ->].
  apply bind_inr in H as ([] & w1 & Hh & H). apply lift_inr in Hh as [Hh ->].
  apply bind_inr in H as ([] & w1 & Hs & H). apply lift_inr in Hs as [Hs ->].
  apply bind_inr in H as (a & w0 & Ht & H).
  apply modify_axes_inr in H as (A & HA & ->).
  apply variable_inr in Hx, Hy.
  exists d, xs, ys, w0, a, A. done.
Qed.

Lemma sns_regplot_inr x y data ax ci color w w' u :
  sns_regplot x y data ax false ci color w = (w', inr u) ->
  exists d xs ys layer w0 a A,
    heap w !! data = Some (OFrame d) /\ column d x = Some xs /\
    column d y = Some ys /\ fit_layer xs ys ci color = inr layer /\
    target ax w = (w0, inr a) /\ heap w0 !! a = Some (OAxes A) /\
    w' = put w0 a (OAxes (with_labels x y (add_artists layer A))).
Proof.
  unfold sns_regplot. intros H.
  apply bind_inr in H as (d & w1 & Hd & H). apply get_frame_inr in Hd as [Hd ->].
  apply bind_inr in H as (sx & w1 & Hx & H). apply lift_inr in Hx as [Hx ->].
  apply bind_inr in H as (sy & w1 & Hy & H). apply lift_inr in Hy as [Hy ->].
  apply getitem_inr in Hx as (xs & Hx & ->).
  apply getitem_inr in Hy as (ys & Hy & ->). cbn [s_values] in H.
  apply bind_inr in H as (a & w0 & Ht & H).
  apply bind_inr in H as ([] & w1 & Hm & H).
  unfold ret in Hm. injection Hm as <-.
  apply bind_inr in H as (layer & w1 & Hl & H). apply lift_inr in Hl as [Hl ->].
  apply modify_axes_inr in H as (A & HA & ->).
  exists d, xs, ys, layer, w0, a, A. done.
Qed.














End RegScatter.
Section Hyperparameter.
Import Num Data Stats Py Common Spec.

(** [plt.show()] over figures [fs]: the rest of the heap is untouched and
    each of them is marked as shown. *)
Lemma show_loop fs : forall w,
  Forall (fun f => exists F, heap w !! f = Some (OFigure F)) fs ->
  exists w',
    for_each fs (fun f =>
      let* fig := get_figure f in
      store f (OFigure (mkFigure (fig_size fig) (fig_axes fig)
                                 (fig_layout_passes fig) true))) w
      = (w', inr tt) /\
    stdout w' = stdout w /\ figs w' = figs w /\
    (forall l, l ∉ fs -> heap w' !! l = heap w !! l) /\
    (forall l F, l ∈ fs -> heap w !! l = Some (OFigure F) ->
                 heap w' !! l = Some (OFigure (shown F))).
Proof.
  induction fs as [| f rest IH]; intros w Hall.
  - exists w. simpl. unfold ret. repeat split; try done.
    intros l F Hin. by apply elem_of_nil in Hin.
  - apply Forall_cons in Hall as [[F0 HF0] Hrest].
    set (w1 := put w f (OFigure (shown F0))).
    assert (Hrest1 : Forall (fun f' => exists F, heap w1 !! f' = Some (OFigure F)) rest).
    { eapply Forall_impl; [exact Hrest|]. intros l [F HF]. simpl.
      destruct (decide (f = l)) as [-> | Hne].
      - rewrite lookup_insert_eq. eauto.
      - rewrite lookup_insert_ne by done. eauto. }
    destruct (IH w1 Hrest1) as (w' & Hrun & Hout & Hfigs & Hoff & Hon).
    exists w'. split; [| split; [| split; [| split]]].
    + simpl. erewrite bind_ok; [exact Hrun|].
      unfold bind, get_figure, store. rewrite HF0. reflexivity.
    + by rewrite Hout.
    + by rewrite Hfigs.
    + intros l Hl. apply not_elem_of_cons in Hl as [Hne Hl].
      rewrite (Hoff l Hl). simpl. by rewrite lookup_insert_ne.
    + intros l F Hin HF.
      destruct (decide (l ∈ rest)) as [Hr | Hr].
      * destruct (decide (f = l)) as [-> | Hne].
        -- rewrite HF0 in HF. injection HF as <-.
           rewrite (Hon l (shown F0) Hr); [done|]. apply heap_put_eq.
        -- apply (Hon l F Hr). simpl. by rewrite lookup_insert_ne.
      * apply elem_of_cons in Hin as [-> | Hin]; [|done].
        rewrite HF0 in HF. injection HF as <-.
        rewrite (Hoff f Hr). apply heap_put_eq.
Qed.

Lemma to_array_ok l xs w :
  to_array l w = (w, inr xs) ->
  exists o, heap w !! l = Some o /\ is_data o.
Proof.
  unfold to_array. destruct (heap w !! l) as [[] |] eqn:E; intros H;
    try discriminate; eexists; (split; [reflexivity | exact I]).
Qed.

Lemma to_array_same_heap l xs w w1 :
  to_array l w = (w, inr xs) -> heap w1 !! l = heap w !! l ->
  to_array l w1 = (w1, inr xs).
Proof.
  unfold to_array. intros H ->.
  destruct (heap w !! l) as [[] |]; by simplify_eq.
Qed.

Lemma combine_lookup {A B} (xs : list A) : forall (ys : list B) i x y,
  xs !! i = Some x -> ys !! i = Some y -> combine xs ys !! i = Some (x, y).
Proof.
  induction xs as [| x0 xs IH]; intros [| y0 ys] [| i] x y Hi Hj;
    simpl in *; try discriminate; simplify_eq; eauto.
Qed.

(** C6.  With [n] parameter values and [n] scores, in a world whose
    pyplot figures are figures, [visualize_hyperparameter] returns, and
    it has made a new current figure of size 10 by 6 with one new Axes
    that carries the title, the two axis labels, the grid and one scatter
    collection of [n] markers, the i-th at [(param_values[i], scores[i])]
    in input order. *)
Theorem visualize_hyperparameter_plots :
  forall param_name param_values scores xs ys w,
    to_array param_values w = (w, inr xs) ->
    to_array scores w = (w, inr ys) ->
    length xs = length ys ->
    figures_ok w ->
    exists w' f a,
      visualize_hyperparameter param_name param_values scores w
        = (w', inr tt) /\
      heap w !! f = None /\ heap w !! a = None /\
      current_figure w' = Some f /\
      heap w' !! f = Some (OFigure (mkFigure (10, 6)%Q [a] 0 true)) /\
      heap w' !! a = Some (OAxes
        (mkAxes f [PathCollection (combine xs ys) "o" plain_style]
                ("Effect of " ++ param_name ++ " on Model Performance")
                param_name "Mean Squared Error" [] 0%Q "center"
                (Some ("both"%string, "-"%string)))) /\
      length (combine xs ys) = length xs /\
      (forall i px py, xs !! i = Some px -> ys !! i = Some py ->
                       combine xs ys !! i = Some (px, py)).
Proof.
  intros param_name param_values scores xs ys w Hxs Hys Hlen Hfigs.
  set (f := fresh (dom (heap w))).
  set (F0 := mkFigure (10, 6)%Q [] 0 false).
  set (w1 := mkWorld (<[f := OFigure F0]> (heap w)) (stdout w) (figs w ++ [f])).
  set (a := fresh (dom (heap w1))).
  assert (Hf : heap w !! f = None) by (apply not_elem_of_dom, is_fresh).
  assert (Ha1 : heap w1 !! a = None) by (apply not_elem_of_dom, is_fresh).
  assert (Haf : a <> f).
  { intros Heq. rewrite Heq in Ha1. simpl in Ha1.
    rewrite lookup_insert_eq in Ha1. discriminate. }
  assert (Ha : heap w !! a = None).
  { simpl in Ha1. by rewrite lookup_insert_ne in Ha1. }
  set (F1 := mkFigure (10, 6)%Q [a] 0 false).
  set (w2 := put (put w1 a (OAxes (new_axes f))) f (OFigure F1)).
  assert (Hgca1 : plt_gca w1 = (w2, inr a)).
  { unfold plt_gca, bind, plt_gcf, get_figure. simpl.
    rewrite last_snoc. simpl. rewrite lookup_insert_eq. simpl.
    reflexivity. }
  assert (Hgca : forall A, plt_gca (put w2 a (OAxes A)) = (put w2 a (OAxes A), inr a)).
  { intros A. unfold plt_gca, bind, plt_gcf, get_figure. simpl.
    rewrite last_snoc. simpl.
    rewrite lookup_insert_ne by done. rewrite lookup_insert_eq. simpl.
    reflexivity. }
  assert (Hw2a : heap w2 !! a = Some (OAxes (new_axes f))).
  { simpl. rewrite lookup_insert_ne by done. apply lookup_insert_eq. }
  set (A1 := add_artists [PathCollection (combine xs ys) "o" plain_style] (new_axes f)).
  set (Afin := mkAxes f [PathCollection (combine xs ys) "o" plain_style]
                ("Effect of " ++ param_name ++ " on Model Performance")
                param_name "Mean Squared Error" [] 0%Q "center"
                (Some ("both"%string, "-"%string))).
  set (w3 := put w2 a (OAxes Afin)).
  assert (Hdata : forall l o, heap w !! l = Some o -> heap w1 !! l = Some o).
  { intros l o Hl. simpl. rewrite lookup_insert_ne; [done|].
    intros <-. rewrite Hf in Hl. discriminate. }
  assert (Hx1 : to_array param_values w1 = (w1, inr xs)).
  { apply (to_array_same_heap _ _ w); [done|].
    destruct (to_array_ok _ _ _ Hxs) as (o & Ho & _).
    rewrite Ho. by apply Hdata. }
  assert (Hy1 : to_array scores w1 = (w1, inr ys)).
  { apply (to_array_same_heap _ _ w); [done|].
    destruct (to_array_ok _ _ _ Hys) as (o & Ho & _).
    rewrite Ho. by apply Hdata. }
  assert (Hshow : Forall (fun f' => exists F, heap w3 !! f' = Some (OFigure F))
                         (figs w3)).
  { simpl. apply Forall_app. split.
    - eapply Forall_impl; [exact Hfigs|]. intros l [F HF]. simpl.
      assert (l <> f) by (intros ->; rewrite Hf in HF; discriminate).
      assert (l <> a) by (intros ->; rewrite Ha in HF; discriminate).
      exists F. by rewrite !lookup_insert_ne.
    - apply Forall_singleton. exists F1.
      rewrite lookup_insert_ne by done. apply lookup_insert_eq. }
  destruct (show_loop (figs w3) w3 Hshow)
    as (w' & Hrun & Hout & Hfg & Hoff & Hon).
  exists w', f, a.
  split; [| split; [done | split; [done | split; [| split; [| split; [| split]]]]]].
  - unfold visualize_hyperparameter.
    erewrite bind_ok by (unfold plt_figure, bind, alloc; reflexivity).
    fold f. fold F0. fold w1.
    erewrite bind_ok by exact Hx1. erewrite bind_ok by exact Hy1.
    unfold plt_scatter, plt_title, plt_xlabel, plt_ylabel, plt_grid_on.
    erewrite bind_ok; cycle 1.
    { erewrite bind_ok by exact Hgca1. unfold ax_scatter.
      rewrite Hlen, Nat.eqb_refl. apply modify_axes_ok. exact Hw2a. }
    fold A1.
    erewrite bind_ok; cycle 1.
    { erewrite bind_ok by apply Hgca. unfold ax_set_title.
      apply modify_axes_ok. apply heap_put_eq. }
    rewrite put_put.
    erewrite bind_ok; cycle 1.
    { erewrite bind_ok by apply Hgca. unfold ax_set_xlabel.
      apply modify_axes_ok. apply heap_put_eq. }
    rewrite put_put.
    erewrite bind_ok; cycle 1.
    { erewrite bind_ok by apply Hgca. unfold ax_set_ylabel.
      apply modify_axes_ok. apply heap_put_eq. }
    rewrite put_put.
    erewrite bind_ok; cycle 1.
    { erewrite bind_ok by apply Hgca. unfold ax_grid_on.
      apply modify_axes_ok. apply heap_put_eq. }
    rewrite put_put.
    unfold plt_show. exact Hrun.
  - unfold current_figure. rewrite Hfg. simpl. apply last_snoc.
  - rewrite (Hon f F1); [done | |].
    + simpl. apply elem_of_app. right. by apply list_elem_of_singleton.
    + simpl. rewrite lookup_insert_ne by done. apply lookup_insert_eq.
  - rewrite Hoff; [apply heap_put_eq|].
    simpl. intros Hin. apply elem_of_app in Hin as [Hin | Hin].
    + unfold figures_ok in Hfigs. rewrite Forall_forall in Hfigs.
      destruct (Hfigs a Hin) as [F HF]. rewrite Ha in HF. discriminate.
    + apply list_elem_of_singleton in Hin. done.
  - rewrite length_combine. lia.
  - intros i px py. apply combine_lookup.
Qed.

End Hyperparameter.
Section Evaluations.
Import Num Data Stats Py Common Spec Examples.

(** [np.percentile] does not skip a missing entry: with one anywhere in a
    numeric array the result is NaN, for every [q]. *)
Lemma np_percentile_missing a vs q :
  as_floats a = inr vs -> has_nan vs = true -> np_percentile a q = inr NaN.
Proof.
  unfold np_percentile. intros -> H.
  destruct vs as [| v vs]; [discriminate|]. by rewrite H.
Qed.

(** C1.  On the Series 1, 2, 3, 4, 5, NaN the call prints the mean,
    median, deviation, minimum, maximum, skewness and kurtosis of the five
    numbers, but "nan" for both percentiles: [np.percentile] is handed the
    Series with its missing entry.  Over the five numbers the percentiles
    are 2 and 4. *)
Theorem print_statistic_with_missing :
  print_statistic "v" 1%positive world_with_missing =
    (mkWorld (heap world_with_missing)
       [ "Statistics for v:";
         "++++++++++++++++++++++++++++++++++++++++++++++++++++++";
         "Mean: 3.0"; "Median: 3.0"; "Standard Deviation: 1.58";
         "Minimum: 1.0"; "Maximum: 5.0";
         "25th Percentile (Q1): nan"; "75th Percentile (Q3): nan";
         "Skewness: 0.0"; "Kurtosis: -1.2"; "Count of Missing Values: 1";
         "++++++++++++++++++++++++++++++++++++++++++++++++++++++"; "" ]%string
       [], inr tt) /\
  percentile_skipna (s_values with_missing) 25 = inr (Fin 2) /\
  percentile_skipna (s_values with_missing) 75 = inr (Fin 4).
Proof. vm_compute. repeat split; reflexivity. Qed.

(** C2.  On a frame where category "a" has the rows 1 and 3 and category
    "b" the row 5, the call draws two bars (heights 2 and 5) and three
    labels, one per row: "1.0" and "3.0" over positions 0 and 1, "5.0"
    over position 2 where there is no bar.  No label shows the height of
    the first bar.  (The labels stand at the doubles 1.2, 3.2 and 5.2,
    the caption at the double 3.7.) *)
Theorem beautybar_labels_rows :
  new_artists None world_with_frames
    (fst (beautybar "x" "y" 1%positive 2%positive "skyblue" None
                    world_with_frames))
  = [ Rectangle (Fin 0) (Fin 2) "skyblue";
      Rectangle (Fin 1) (Fin 5) "skyblue";
      Text (Fin 0) (Fin (b64 (6 # 5))) "1.0" "center" "bottom" "black";
      Text (Fin 1) (Fin (b64 (16 # 5))) "3.0" "center" "bottom" "black";
      Text (Fin 2) (Fin (b64 (26 # 5))) "5.0" "center" "bottom" "black";
      HLine (Fin (7 # 2)) "r" "--";
      Text (Fin (19 # 2)) (Fin (b64 (37 # 10))) "Average: 3.5" "left"
           "baseline" "red" ]%Q.
Proof. vm_compute. reflexivity. Qed.



Lemma pearson_verdict_witness :
  exists verdict,
    pearson_correlation perfect 1%positive 2%positive world_with_pair =
      (mkWorld (heap world_with_pair)
               (stdout world_with_pair ++
                [("Pearson Correlation Coefficient: " ++ str (Fin 1))%string;
                 ("P-value: " ++ str (Fin 0))%string; verdict])
               (figs world_with_pair), inr tt) /\
    (verdict = significant_message (display_name doubled_x)
                                   (display_name doubled_y)
       <-> below (Fin 0) (1 # 20)) /\
    (verdict = not_significant_message (display_name doubled_x)
                                       (display_name doubled_y)
       <-> ~ below (Fin 0) (1 # 20)) /\
    (Fin 0 = Fin (1 # 20) ->
     verdict = not_significant_message (display_name doubled_x)
                                       (display_name doubled_y)).
Proof.
  apply (pearson_verdict perfect 1%positive 2%positive doubled_x doubled_y
           (Fin 1) (Fin 0) world_with_pair); vm_compute; reflexivity.
Defined.



Lemma layout_pass_on_current_figure_witness :
  exists f,
    current_figure
      (fst (beautybar "x" "y" 1%positive 2%positive "skyblue"
                      (Some 11%positive) world_with_two_figures)) = Some f /\
    (current_figure world_with_two_figures = Some f \/
     (current_figure world_with_two_figures = None /\
      heap world_with_two_figures !! f = None /\
      figs (fst (beautybar "x" "y" 1%positive 2%positive "skyblue"
                           (Some 11%positive) world_with_two_figures))
        = figs world_with_two_figures ++ [f])) /\
    layout_passes
      (fst (beautybar "x" "y" 1%positive 2%positive "skyblue"
                      (Some 11%positive) world_with_two_figures)) f
      = S (layout_passes world_with_two_figures f) /\
    (forall fa, owner world_with_two_figures 11%positive = Some fa ->
                fa <> f ->
                layout_passes
                  (fst (beautybar "x" "y" 1%positive 2%positive "skyblue"
                                  (Some 11%positive) world_with_two_figures))
                  fa
                = layout_passes world_with_two_figures fa).
Proof.
  apply (layout_pass_on_current_figure "x" "y" "skyblue" 1%positive
           2%positive 11%positive world_with_two_figures).
  vm_compute. reflexivity.
Defined.


Lemma visualize_hyperparameter_plots_witness :
  exists w' f a,
    visualize_hyperparameter "alpha" 1%positive 2%positive world_with_lists
      = (w', inr tt) /\
    heap world_with_lists !! f = None /\ heap world_with_lists !! a = None /\
    current_figure w' = Some f /\
    heap w' !! f = Some (OFigure (mkFigure (10, 6)%Q [a] 0 true)) /\
    heap w' !! a = Some (OAxes
      (mkAxes f [PathCollection (combine tried errors) "o" plain_style]
              ("Effect of " ++ "alpha" ++ " on Model Performance")
              "alpha" "Mean Squared Error" [] 0%Q "center"
              (Some ("both"%string, "-"%string)))) /\
    length (combine tried errors) = length tried /\
    (forall i px py, tried !! i = Some px -> errors !! i = Some py ->
                     combine tried errors !! i = Some (px, py)).
Proof.
  apply (visualize_hyperparameter_plots "alpha" 1%positive 2%positive
           tried errors world_with_lists).
  - vm_compute. reflexivity.
  - vm_compute. reflexivity.
  - reflexivity.
  - constructor.
Defined.

Lemma print_statistic_propagates_witness :
  exists e,
    first_raised (statistics (mkSeries (Some "v"%string) [])) = Some e /\
    snd (print_statistic "v" 1%positive world_with_empty) = inl e.
Proof.
  apply (print_statistic_propagates "v" 1%positive
           (mkSeries (Some "v"%string) []) world_with_empty).
  - vm_compute. reflexivity.
  - left. reflexivity.
Defined.

End Evaluations.

Section ConsoleReport.
Import Num Data Stats Py Common Spec More.


End ConsoleReport.
Section ConsoleEdges.
Import Num Data Stats Py Common Spec More.

(** X3.  On an empty Series the call prints the header, the banner and
    "nan" for mean, median, standard deviation, minimum and maximum, then
    raises the IndexError of [np.percentile]: the seven lines stay printed
    and the report is never closed by its second banner. *)
Theorem print_statistic_empty :
  forall title variable s w,
    heap w !! variable = Some (OSeries s) ->
    s_values s = [] ->
    print_statistic title variable w =
      (printed w (report_head title ++
                  [ "Mean: nan"; "Median: nan"; "Standard Deviation: nan";
                    "Minimum: nan"; "Maximum: nan" ]%string),
       inl IndexError).
Proof.
  intros title variable s w H Hnil.
  assert (E : as_floats (s_values s) = inr []) by (by rewrite Hnil).
  pose proof (reduce_returns _ _ _ E : Series_mean s = inr _) as Hmean.
  pose proof (reduce_returns _ _ _ E : Series_median s = inr _) as Hmed.
  pose proof (reduce_returns _ _ _ E : Series_std s = inr _) as Hstd.
  pose proof (reduce_returns _ _ _ E : Series_min s = inr _) as Hmin.
  pose proof (reduce_returns _ _ _ E : Series_max s = inr _) as Hmax.
  assert (Hq : np_percentile (s_values s) 25 = inl IndexError).
  { unfold np_percentile. by rewrite E. }
  unfold print_statistic. repeat run_statement.
  unfold printed, report_head. rewrite <- !app_assoc. reflexivity.
Qed.

Lemma call_attribute_error variable f w :
  (forall s, heap w !! variable <> Some (OSeries s)) ->
  call variable f w = (w, inl AttributeError).
Proof.
  intros H. unfold call, bind, get_series.
  destruct (heap w !! variable) as [[s | | | |] |] eqn:E; try done.
  by destruct (H s).
Qed.

(** X4.  When [variable] is a Series with an entry that is not a number
    (TypeError), or a list, an Axes or a Figure, none of which has a
    method [mean] (AttributeError), the call raises at its first
    statistic, after the header and the banner, and these two lines are
    all it has printed. *)
Theorem print_statistic_early_error :
  forall title variable e w,
    early_error (heap w !! variable) = Some e ->
    print_statistic title variable w = (printed w (report_head title), inl e).
Proof.
  intros title variable e w He.
  unfold print_statistic. do 2 run_statement.
  unfold printed, report_head. rewrite <- !app_assoc. cbn [app].
  destruct (heap w !! variable) as [o |] eqn:E; [| discriminate].
  destruct o as [s | d | l | a | f].
  - simpl in He.
    destruct (as_floats (s_values s)) as [e' | vs] eqn:Ef; [| discriminate].
    injection He as <-.
    assert (Hm : Series_mean s = inl e') by (by apply reduce_raises).
    erewrite bind_raises; [reflexivity|].
    eapply call_raises; [cbn [heap]; exact E | exact Hm].
  - discriminate.
  - injection He as <-. erewrite bind_raises; [reflexivity|].
    apply call_attribute_error. cbn [heap]. intros s. by rewrite E.
  - injection He as <-. erewrite bind_raises; [reflexivity|].
    apply call_attribute_error. cbn [heap]. intros s. by rewrite E.
  - injection He as <-. erewrite bind_raises; [reflexivity|].
    apply call_attribute_error. cbn [heap]. intros s. by rewrite E.
Qed.

End ConsoleEdges.
Section PearsonEdges.
Import Num Data Stats Py Common Spec More.

Lemma pearsonr_rejects stat xa ya xs ys :
  as_floats xa = inr xs -> as_floats ya = inr ys ->
  length xs <> length ys \/ (length xs < 2)%nat ->
  pearsonr stat xa ya = inl ValueError.
Proof.
  intros Hx Hy Hbad. unfold pearsonr. rewrite Hx, Hy.
  destruct (length xs =? length ys)%nat eqn:El; simpl; [| done].
  apply Nat.eqb_eq in El. destruct Hbad as [Hne | Hlt]; [done|].
  apply Nat.ltb_lt in Hlt. by rewrite Hlt.
Qed.

(** X5.  For two numeric sequences of different length, or shorter than
    two, [pearsonr] raises ValueError and [pearson_correlation] raises it
    in turn before printing anything: the world is unchanged. *)
Theorem pearson_correlation_rejects :
  forall stat x y xa ya xs ys w,
    to_array x w = (w, inr xa) ->
    to_array y w = (w, inr ya) ->
    as_floats xa = inr xs -> as_floats ya = inr ys ->
    length xs <> length ys \/ (length xs < 2)%nat ->
    pearson_correlation stat x y w = (w, inl ValueError).
Proof.
  intros stat x y xa ya xs ys w Hx Hy Hxs Hys Hbad.
  pose proof (pearsonr_rejects stat xa ya xs ys Hxs Hys Hbad) as Hr.
  unfold pearson_correlation.
  erewrite bind_ok by exact Hx. erewrite bind_ok by exact Hy.
  erewrite bind_raises; [reflexivity|]. by apply lift_raises.
Qed.

Lemma name_of_not_series l w :
  (forall s, heap w !! l <> Some (OSeries s)) ->
  name_of l w = (w, inl AttributeError).
Proof.
  intros H. unfold name_of, bind, get_series.
  destruct (heap w !! l) as [[s | | | |] |] eqn:E; try done.
  by destruct (H s).
Qed.

(** X6.  [pearsonr] accepts plain lists, but the verdict reads [x.name] and
    [y.name]: when one of the two arguments is a list, the call prints the
    coefficient and the p-value and then raises AttributeError, with no
    verdict printed. *)
Theorem pearson_correlation_needs_names :
  forall stat x y xa ya r p w,
    to_array x w = (w, inr xa) ->
    to_array y w = (w, inr ya) ->
    pearsonr stat xa ya = inr (r, p) ->
    (exists l, heap w !! x = Some (OList l)) \/
    (exists l, heap w !! y = Some (OList l)) ->
    pearson_correlation stat x y w =
      (printed w [ ("Pearson Correlation Coefficient: " ++ str r)%string;
                   ("P-value: " ++ str p)%string ],
       inl AttributeError).
Proof.
  intros stat x y xa ya r p w Hx Hy Hr Hlist.
  unfold pearson_correlation.
  erewrite bind_ok by exact Hx. erewrite bind_ok by exact Hy.
  erewrite bind_ok by (apply lift_ok; exact Hr). cbn [fst snd].
  do 2 run_statement. unfold printed. rewrite <- !app_assoc. cbn [app].
  set (w2 := mkWorld (heap w) _ (figs w)).
  assert (Hraise : forall k : string -> string -> string,
    (let* xn := name_of x in let* yn := name_of y in print (k xn yn)) w2
    = (w2, inl AttributeError)).
  { intros k. destruct (heap w !! x) as [[sx | | | |] |] eqn:Ex;
      try (erewrite bind_raises; [reflexivity|];
           apply name_of_not_series; cbn [heap w2]; intros s; by rewrite Ex).
    destruct Hlist as [[l Hl] | [l Hl]]; [discriminate|].
    erewrite bind_ok by (apply name_of_ok; cbn [heap w2]; exact Ex).
    erewrite bind_raises; [reflexivity|].
    apply name_of_not_series. cbn [heap w2]. intros s. by rewrite Hl. }
  destruct (flt p (Fin (1 # 20))).
  - apply (Hraise (fun xn yn =>
      ("There is a statistically significant correlation between "
       ++ xn ++ " and " ++ yn ++ ".")%string)).
  - apply (Hraise (fun xn yn =>
      ("There is no statistically significant correlation between "
       ++ xn ++ " and " ++ yn ++ ".")%string)).
Qed.

End PearsonEdges.

Section Keeps.
Import Num Data Stats Py Common Spec More.

Lemma keeps_ret {A B} (proj : World -> B) (a : A) : keeps proj (ret a).
Proof. by intros w. Qed.

Lemma keeps_raise {A B} (proj : World -> B) (e : exn) :
  keeps proj (@raise A e).
Proof. by intros w. Qed.

Lemma keeps_lift {A B} (proj : World -> B) (r : result A) :
  keeps proj (lift r).
Proof. destruct r; [apply keeps_raise | apply keeps_ret]. Qed.

Lemma keeps_bind {A B C} (proj : World -> C) (m : M A) (k : A -> M B) :
  keeps proj m -> (forall a, keeps proj (k a)) -> keeps proj (bind m k).
Proof.
  intros Hm Hk w. unfold bind. specialize (Hm w).
  destruct (m w) as [w1 [e | a]]; simpl in *; [done|].
  rewrite <- Hm. apply Hk.
Qed.

Lemma keeps_for_each {A C} (proj : World -> C) (xs : list A) body :
  (forall x, keeps proj (body x)) -> keeps proj (for_each xs body).
Proof.
  intros Hb. induction xs as [| x rest IH]; simpl.
  - apply keeps_ret.
  - apply keeps_bind; auto.
Qed.

Lemma keeps_read {A C} (proj : World -> C) (m : M A) :
  (forall w, fst (m w) = w) -> keeps proj m.
Proof. intros H w. by rewrite H. Qed.

Lemma get_series_reads l w : fst (get_series l w) = w.
Proof. unfold get_series. by destruct (heap w !! l) as [[]|]. Qed.

Lemma get_frame_reads l w : fst (get_frame l w) = w.
Proof. unfold get_frame. by destruct (heap w !! l) as [[]|]. Qed.

Lemma get_axes_reads l w : fst (get_axes l w) = w.
Proof. unfold get_axes. by destruct (heap w !! l) as [[]|]. Qed.

Lemma get_figure_reads l w : fst (get_figure l w) = w.
Proof. unfold get_figure. by destruct (heap w !! l) as [[]|]. Qed.

Lemma to_array_reads l w : fst (to_array l w) = w.
Proof. unfold to_array. by destruct (heap w !! l) as [[]|]. Qed.

Lemma keeps_print_plotting line : keeps plotting_state (print line).
Proof. by intros w. Qed.

Lemma keeps_alloc_stdout o : keeps stdout (alloc o).
Proof. by intros w. Qed.

Lemma keeps_store_stdout l o : keeps stdout (store l o).
Proof. by intros w. Qed.

Lemma keeps_plt_figure_stdout size : keeps stdout (plt_figure size).
Proof. by intros w. Qed.

Lemma keeps_plt_gcf_stdout : keeps stdout plt_gcf.
Proof.
  intros w. unfold plt_gcf. destruct (last (figs w)); [done|].
  apply keeps_plt_figure_stdout.
Qed.

End Keeps.

Create HintDb keeps.
#[export] Hint Resolve keeps_ret keeps_raise keeps_lift
  keeps_print_plotting keeps_alloc_stdout keeps_store_stdout
  keeps_plt_figure_stdout keeps_plt_gcf_stdout : keeps.
#[export] Hint Extern 1 (More.keeps _ (Py.get_series _)) =>
  apply keeps_read, get_series_reads : keeps.
#[export] Hint Extern 1 (More.keeps _ (Py.get_frame _)) =>
  apply keeps_read, get_frame_reads : keeps.
#[export] Hint Extern 1 (More.keeps _ (Py.get_axes _)) =>
  apply keeps_read, get_axes_reads : keeps.
#[export] Hint Extern 1 (More.keeps _ (Py.get_figure _)) =>
  apply keeps_read, get_figure_reads : keeps.
#[export] Hint Extern 1 (More.keeps _ (Py.to_array _)) =>
  apply keeps_read, to_array_reads : keeps.

(** One step of a proof that a part of the world is kept. *)
Ltac keeps_step :=
  match goal with
  | |- More.keeps _ (Py.bind _ _) => apply keeps_bind; [| intros ?]
  | |- More.keeps _ (Py.for_each _ _) => apply keeps_for_each; intros ?
  | |- More.keeps _ (match ?x with _ => _ end) => destruct x
  | |- More.keeps _ _ => solve [auto with keeps]
  end.

Ltac keeps_auto := repeat keeps_step.

Section KeepsOfCalls.
Import Num Data Stats Py Common Spec More.

(** X8.  [print_statistic] and [pearson_correlation] leave the heap and
    pyplot's figure list exactly as they were, whatever they are given and
    whether they return or raise: they create no figure and draw
    nothing. *)
Theorem console_functions_draw_nothing :
  (forall title variable, keeps plotting_state (print_statistic title variable))
  /\ (forall stat x y, keeps plotting_state (pearson_correlation stat x y)).
Proof.
  split.
  - intros. unfold print_statistic, call. keeps_auto.
  - intros. unfold pearson_correlation, name_of. keeps_auto.
Qed.

(** X9.  [beautybar], [reg_scatter] and [visualize_hyperparameter] print
    nothing, whatever they are given and whether they return or raise. *)
Theorem chart_functions_print_nothing :
  (forall x y data data_avg color ax,
     keeps stdout (beautybar x y data data_avg color ax))
  /\ (forall x y data hue legend size sizes ax,
        keeps stdout (reg_scatter x y data hue legend size sizes ax))
  /\ (forall param_name param_values scores,
        keeps stdout (visualize_hyperparameter param_name param_values scores)).
Proof.
  split; [| split].
  - intros. unfold beautybar, target, plt_gca, sns_barplot, frame_getitem,
      ax_text, ax_axhline, ax_set_xlabel, ax_set_ylabel, ax_get_xticklabels,
      ax_set_xticklabels, ax_grid_on, plt_tight_layout, modify_axes.
    keeps_auto.
  - intros. unfold reg_scatter, sns_scatterplot, sns_regplot, target,
      plt_gca, modify_axes. keeps_auto.
  - intros. unfold visualize_hyperparameter, plt_scatter, plt_title,
      plt_xlabel, plt_ylabel, plt_grid_on, plt_gca, ax_scatter,
      ax_set_title, ax_set_xlabel, ax_set_ylabel, ax_grid_on, modify_axes.
    keeps_auto. intros w. unfold plt_show. apply keeps_for_each.
    intros f. keeps_auto.
Qed.

End KeepsOfCalls.
Section NumbersRespectEquality.
Import Num Data Stats Py Common Spec More.

(** [round] and [+] read their operand as a double, so they do not
    depend on how the rational is written. *)
Lemma round_comp (q q' : Q) n :
  (q == q')%Q -> round (Fin q) n = round (Fin q') n.
Proof. intros Heq. unfold round. by rewrite (b64_proper _ _ Heq). Qed.

Lemma fadd_comp (q q' : Q) b :
  (q == q')%Q -> fadd (Fin q) b = fadd (Fin q') b.
Proof.
  intros Heq. destruct b as [o |]; simpl; [| done].
  by rewrite (b64_proper _ _ Heq).
Qed.

Lemma qmean_single (q : Q) : (qmean [q] == q)%Q.
Proof.
  unfold qmean. rewrite Qred_correct. unfold qsum. rewrite Qred_correct.
  unfold qlen. cbn [fold_right length].
  change (inject_Z (Z.of_nat 1)) with 1%Q. field.
Qed.

End NumbersRespectEquality.

Section BarsAndLabels.
Import Num Data Stats Py Common Spec More.

Lemma cell_eqb_refl_string c : is_string c = true -> cell_eqb c c = true.
Proof. destruct c as [v | s]; [done|]. intros _. apply String.eqb_refl. Qed.

Lemma cell_eqb_neq_string c c' :
  is_string c = true -> c <> c' -> cell_eqb c c' = false.
Proof.
  destruct c as [v | s]; [done|]. intros _ Hne.
  destruct c' as [v' | s']; [done|]. simpl.
  apply String.eqb_neq. congruence.
Qed.

Lemma filter_all {A} (p : A -> bool) (l : list A) :
  (forall a, a ∈ l -> p a = true) -> List.filter p l = l.
Proof.
  induction l as [| a l IH]; intros H; simpl; [done|].
  rewrite (H a) by apply list_elem_of_here.
  rewrite IH; [done|]. intros b Hb. apply H. by apply list_elem_of_further.
Qed.

Lemma unique_nodup xs :
  forallb is_string xs = true -> NoDup xs -> unique xs = xs.
Proof.
  induction xs as [| c rest IH]; intros Hs Hnd; simpl; [done|].
  simpl in Hs. apply andb_true_iff in Hs as [Hc Hrest].
  apply NoDup_cons in Hnd as [Hnotin Hnd].
  rewrite IH by done. f_equal. apply filter_all.
  intros c' Hin. rewrite cell_eqb_neq_string; [done | done |].
  intros ->. done.
Qed.

(** Distinct string categories are plotted in the order of the rows. *)
Lemma categorical_order_distinct xs :
  forallb is_string xs = true -> NoDup xs -> categorical_order xs = xs.
Proof.
  intros Hs Hnd. unfold categorical_order. rewrite unique_nodup by done.
  destruct xs as [| c rest]; [done|].
  simpl in Hs. apply andb_true_iff in Hs as [Hc Hrest].
  destruct c as [v | s]; [done|]. simpl.
  f_equal. apply filter_all. intros c' Hin.
  assert (Hstr : is_string c' = true).
  { rewrite forallb_forall in Hrest. apply Hrest. by apply list_elem_of_In. }
  by destruct c'.
Qed.

Lemma group_values_absent c xs : forall vs,
  (forall c', c' ∈ xs -> cell_eqb c c' = false) -> group_values c xs vs = [].
Proof.
  induction xs as [| x xs IH]; intros vs H; simpl; [done|].
  destruct vs as [| [q |] vs]; [done | |].
  - rewrite (H x) by apply list_elem_of_here.
    apply IH. intros c' Hc. apply H. by apply list_elem_of_further.
  - apply IH. intros c' Hc. apply H. by apply list_elem_of_further.
Qed.

Lemma group_values_app c px : forall pv xs vs,
  length px = length pv ->
  group_values c (px ++ xs) (pv ++ vs) =
    group_values c px pv ++ group_values c xs vs.
Proof.
  induction px as [| x px IH]; intros [| v pv] xs vs Hlen;
    simpl in *; try discriminate.
  - by destruct xs, vs as [| [] ?].
  - injection Hlen as Hlen. destruct v as [q |].
    + destruct (cell_eqb c x); simpl; by rewrite IH.
    + by rewrite IH.
Qed.

Lemma has_nan_cons v vs :
  has_nan (v :: vs) = false -> exists q, v = Fin q /\ has_nan vs = false.
Proof.
  unfold has_nan. simpl. intros H. apply orb_false_iff in H as [Hv Hvs].
  destruct v as [q |]; [eauto | discriminate].
Qed.

(** With one row per category and no missing value, the label of row [i]
    is the label that belongs over bar [i]. *)
Lemma labels_of_bars_from color xs : forall vs px pv,
  length px = length pv -> length xs = length vs ->
  forallb is_string (px ++ xs) = true -> NoDup (px ++ xs) ->
  has_nan vs = false ->
  map label_of_bar
      (map (fun '(i, c) =>
              Rectangle (of_Z (Z.of_nat i))
                        (bar_height c (px ++ xs) (pv ++ vs)) color)
           (enumerate_from (length px) xs))
  = row_labels_from (length px) vs.
Proof.
  induction xs as [| c xs IH]; intros [| v vs] px pv Hp Hlen Hs Hnd Hnan;
    simpl in Hlen; try discriminate; [done|].
  injection Hlen as Hlen.
  apply has_nan_cons in Hnan as (q & -> & Hnan).
  assert (Hc : is_string c = true).
  { rewrite forallb_forall in Hs. apply Hs. apply in_or_app. right. by left. }
  assert (Hpx : forall c', c' ∈ px -> cell_eqb c c' = false).
  { intros c' Hin. apply cell_eqb_neq_string; [done|]. intros <-.
    apply NoDup_app in Hnd as (_ & Hdisj & _).
    apply (Hdisj c Hin). apply list_elem_of_here. }
  assert (Hxs : forall c', c' ∈ xs -> cell_eqb c c' = false).
  { intros c' Hin. apply cell_eqb_neq_string; [done|]. intros <-.
    apply NoDup_app in Hnd as (_ & _ & Hnd).
    apply NoDup_cons in Hnd as [Hnotin _]. done. }
  assert (Hg : group_values c (px ++ c :: xs) (pv ++ Fin q :: vs) = [q]).
  { rewrite group_values_app by done.
    rewrite (group_values_absent c px pv Hpx). cbn [app group_values].
    rewrite (cell_eqb_refl_string c Hc).
    by rewrite (group_values_absent c xs vs Hxs). }
  unfold row_labels_from. cbn [enumerate_from map].
  f_equal.
  - unfold bar_height. rewrite Hg. cbn [label_of_bar]. unfold row_label.
    rewrite (round_comp _ _ 2 (qmean_single q)).
    rewrite (fadd_comp _ _ offset (qmean_single q)). reflexivity.
  - fold (row_labels_from (S (length px)) vs).
    specialize (IH vs (px ++ [c]) (pv ++ [Fin q])).
    rewrite !length_app in IH. simpl in IH.
    rewrite !Nat.add_1_r in IH. rewrite <- !app_assoc in IH. simpl in IH.
    apply IH; try done. lia.
Qed.

Lemma labels_of_bars color xs vs :
  length xs = length vs ->
  forallb is_string xs = true -> NoDup xs -> has_nan vs = false ->
  map label_of_bar (bars xs vs color) = row_labels_from 0 vs.
Proof.
  intros Hlen Hs Hnd Hnan. unfold bars, enumerate.
  rewrite categorical_order_distinct by done.
  apply (labels_of_bars_from color xs vs [] []); done.
Qed.

End BarsAndLabels.
Section BeautybarMore.
Import Num Data Stats Py Common Spec More.

Lemma as_floats_length cs : forall vs,
  as_floats cs = inr vs -> length cs = length vs.
Proof.
  induction cs as [| [v | s] cs IH]; intros vs Hv; simpl in Hv.
  - by injection Hv as <-.
  - destruct (as_floats cs) as [e | vs'] eqn:E; [discriminate|].
    injection Hv as <-. simpl. f_equal. by apply IH.
  - discriminate.
Qed.

(** X10.  When [data] has one row per category (the entries of column [x]
    are distinct strings) and no value of column [y] is missing, a call of
    [beautybar] that returns has drawn one bar per row and, for each bar,
    in the same order, the label that belongs over it: centred on the bar,
    0.2 above its top, showing its height rounded to two decimals. *)
Theorem beautybar_labels_match_bars :
  forall x y data data_avg color ax w w' d xs ys vs,
    beautybar x y data data_avg color ax w = (w', inr tt) ->
    heap w !! data = Some (OFrame d) ->
    column d x = Some xs -> column d y = Some ys ->
    as_floats ys = inr vs ->
    length xs = length ys ->
    forallb is_string xs = true -> NoDup xs -> has_nan vs = false ->
    exists m,
      new_artists ax w w' =
        bars xs vs color ++ map label_of_bar (bars xs vs color) ++
        [average_line m; average_text m] /\
      length (bars xs vs color) = length xs.
Proof.
  intros x y data data_avg color ax w w' d xs ys vs H Hd Hx Hy Hv Hlen
         Hs Hnd Hnan.
  apply beautybar_draws in H
    as (d' & davg & xs' & ys' & vs' & m & Hd' & _ & Hx' & Hy' & Hv' & _ & Hn).
  rewrite Hd in Hd'. injection Hd' as <-.
  rewrite Hx in Hx'. injection Hx' as <-.
  rewrite Hy in Hy'. injection Hy' as <-.
  rewrite Hv in Hv'. injection Hv' as <-.
  pose proof (as_floats_length _ _ Hv) as Hlv.
  exists m. split.
  - rewrite Hn, labels_of_bars; [done | lia | done | done | done].
  - unfold bars, enumerate. rewrite categorical_order_distinct by done.
    rewrite length_map. generalize 0%nat. clear.
    induction xs as [| c xs IH]; intros i; simpl; [done|]. by rewrite IH.
Qed.

(** X11.  A call of [beautybar] that returns leaves the target Axes with
    the x label [x], the y label [y], the category names as tick labels
    (those seaborn set, read back and set again) rotated by 45 degrees and
    right-aligned, and a dashed grid along y.  The title and the figure of
    the Axes are unchanged and what was drawn on it before is still there,
    before what the call has drawn. *)
Theorem beautybar_decorates_target :
  forall x y data data_avg color ax w w',
    beautybar x y data data_avg color ax w = (w', inr tt) ->
    exists w0 a A A' d xs,
      target ax w = (w0, inr a) /\
      heap w0 !! a = Some (OAxes A) /\
      heap w' !! a = Some (OAxes A') /\
      heap w !! data = Some (OFrame d) /\ column d x = Some xs /\
      ax_xlabel A' = x /\ ax_ylabel A' = y /\
      ax_xticklabels A' = map str_cell (categorical_order xs) /\
      ax_xtick_rotation A' = 45%Q /\ ax_xtick_ha A' = "right"%string /\
      ax_grid A' = Some ("y"%string, "--"%string) /\
      ax_title A' = ax_title A /\ ax_figure A' = ax_figure A /\
      exists new, ax_artists A' = ax_artists A ++ new.
Proof.
  intros x y data data_avg color ax w w' H.
  apply beautybar_returns in H
    as (w0 & a & A & d & xs & ys & vs & davg & m & f &
        Ht & HA & Hd & Hx & _ & _ & _ & _ & Hf).
  pose proof (frame_target ax w) as Hfp. rewrite Ht in Hfp. simpl in Hfp.
  eexists w0, a, A, _, d, xs.
  split; [done|]. split; [done|].
  split; [eapply layout_pass_axes; [exact Hf | apply heap_put_eq]|].
  split; [eapply (data_not_created _ _ Hfp); [exact Hd | done]|].
  split; [done|]. unfold finished_axes. cbn. repeat split; try done. eauto.
Qed.

(** X12.  When [data] has no column [x] or no column [y], the call raises
    the ValueError of [sns.barplot] once the target is resolved, and
    nothing has been drawn: the world is as the target resolution left
    it. *)
Theorem beautybar_missing_column :
  forall x y data data_avg color ax w w0 a d,
    target ax w = (w0, inr a) ->
    heap w0 !! data = Some (OFrame d) ->
    column d x = None \/ column d y = None ->
    beautybar x y data data_avg color ax w = (w0, inl ValueError).
Proof.
  intros x y data data_avg color ax w w0 a d Ht Hd Hmissing.
  unfold beautybar. erewrite bind_ok by exact Ht.
  erewrite bind_raises; [reflexivity|].
  unfold sns_barplot.
  erewrite bind_ok by (unfold get_frame; rewrite Hd; reflexivity).
  unfold variable. destruct (column d x) as [xs |] eqn:Ex.
  - destruct Hmissing as [Hc | Hc]; [discriminate|]. rewrite Hc.
    erewrite bind_ok by reflexivity. erewrite bind_raises; reflexivity.
  - erewrite bind_raises; reflexivity.
Qed.

(** X13.  When [data] is fine but [data_avg] has no column [y], the call
    raises KeyError for [y] after the bars and the row labels have been
    drawn on the target: they stay, there is no reference line, and no
    other object and no figure list has changed. *)
Theorem beautybar_average_frame_without_column :
  forall x y data data_avg color ax w w0 a A d davg xs ys vs,
    target ax w = (w0, inr a) ->
    heap w0 !! a = Some (OAxes A) ->
    heap w0 !! data = Some (OFrame d) ->
    column d x = Some xs -> column d y = Some ys ->
    as_floats ys = inr vs ->
    heap w0 !! data_avg = Some (OFrame davg) ->
    column davg y = None ->
    exists w',
      beautybar x y data data_avg color ax w = (w', inl (KeyError y)) /\
      drawn w0 w' a = bars xs vs color ++ row_labels_from 0 vs /\
      hlines (drawn w0 w' a) = [] /\
      figs w' = figs w0 /\
      (forall l, l <> a -> heap w' !! l = heap w0 !! l).
Proof.
  intros x y data data_avg color ax w w0 a A d davg xs ys vs
         Ht HA Hd Hx Hy Hv Hdavg Hnone.
  assert (Hne : a <> data) by (intros ->; rewrite Hd in HA; discriminate).
  assert (Hne' : a <> data_avg)
    by (intros ->; rewrite Hdavg in HA; discriminate).
  eexists. split; [| split; [| split; [| split]]].
  - unfold beautybar. erewrite bind_ok by exact Ht.
    erewrite bind_ok; cycle 1.
    { unfold sns_barplot.
      erewrite bind_ok by (unfold get_frame; rewrite Hd; reflexivity).
      unfold variable. rewrite Hx, Hy.
      do 2 erewrite bind_ok by reflexivity.
      erewrite bind_ok by (apply lift_ok; exact Hv).
      apply modify_axes_ok. exact HA. }
    erewrite bind_ok; cycle 1.
    { unfold frame_getitem.
      erewrite bind_ok by (unfold get_frame; rewrite heap_put_ne by done;
                           rewrite Hd; reflexivity).
      apply lift_ok. unfold getitem. rewrite Hy. reflexivity. }
    cbn [s_values]. unfold enumerate.
    erewrite bind_ok by (eapply label_loop; [exact Hv | apply heap_put_eq]).
    rewrite put_put.
    erewrite bind_raises; [reflexivity|].
    unfold frame_getitem.
    erewrite bind_ok by (unfold get_frame; rewrite heap_put_ne by done;
                         rewrite Hdavg; reflexivity).
    apply lift_raises. unfold getitem. rewrite Hnone. reflexivity.
  - eapply drawn_put; [exact HA|].
    unfold artists_at. rewrite heap_put_eq.
    cbn [ax_artists with_ticks with_labels add_artists].
    by rewrite <- app_assoc.
  - unfold drawn, artists_at. rewrite HA, heap_put_eq.
    cbn [ax_artists with_ticks with_labels add_artists].
    rewrite <- app_assoc, drop_app_length.
    by rewrite hlines_app, hlines_bars, hlines_row_labels.
  - reflexivity.
  - intros l Hl. by apply heap_put_ne.
Qed.

(** Resolving the target leaves every Axes of the heap as it is. *)
End BeautybarMore.
Section RegScatterMore.
Import Num Data Stats Py Common Spec Examples More MoreExamples.

(** X15.  When [data] has no column [x] or no column [y], [reg_scatter]
    raises the ValueError of [sns.scatterplot] and the world is unchanged:
    with no target given, not even a figure has been created. *)
Theorem reg_scatter_missing_column :
  forall x y data hue legend size sizes ax w d,
    heap w !! data = Some (OFrame d) ->
    column d x = None \/ column d y = None ->
    reg_scatter x y data hue legend size sizes ax w = (w, inl ValueError).
Proof.
  intros x y data hue legend size sizes ax w d Hd Hmissing.
  unfold reg_scatter. erewrite bind_raises; [reflexivity|].
  unfold sns_scatterplot.
  erewrite bind_ok by (unfold get_frame; rewrite Hd; reflexivity).
  unfold variable. destruct (column d x) as [xs |] eqn:Ex.
  - destruct Hmissing as [Hc | Hc]; [discriminate|]. rewrite Hc.
    erewrite bind_ok by reflexivity. erewrite bind_raises; reflexivity.
  - erewrite bind_raises; reflexivity.
Qed.

Lemma sns_scatterplot_ok x y data ax hue legend size sizes w w0 a A d xs ys :
  heap w !! data = Some (OFrame d) ->
  column d x = Some xs -> column d y = Some ys ->
  optional_variable d hue = inr tt -> optional_variable d size = inr tt ->
  target ax w = (w0, inr a) -> heap w0 !! a = Some (OAxes A) ->
  sns_scatterplot x y data ax hue legend size sizes w =
    (put w0 a (OAxes (with_labels x y
       (add_artists (scatter_layer d xs ys hue legend size sizes) A))),
     inr tt).
Proof.
  intros Hd Hx Hy Hh Hs Ht HA. unfold sns_scatterplot.
  erewrite bind_ok by (unfold get_frame; rewrite Hd; reflexivity).
  unfold variable. rewrite Hx, Hy. do 2 erewrite bind_ok by reflexivity.
  erewrite bind_ok by (apply lift_ok; exact Hh).
  erewrite bind_ok by (apply lift_ok; exact Hs).
  erewrite bind_ok by exact Ht.
  by erewrite modify_axes_ok by exact HA.
Qed.

(** X16.  When column [x] or column [y] holds an entry that is not a
    number and at least two rows have neither entry missing, the scatter
    layer is drawn and then the fit of [sns.regplot] raises TypeError: the
    call raises with the markers on the target and no regression line.
    (With fewer such rows seaborn switches the fit off and nothing is
    raised.) *)
Theorem reg_scatter_not_numeric :
  forall x y data hue legend size sizes ax w w0 a A d xs ys,
    heap w !! data = Some (OFrame d) ->
    column d x = Some xs -> column d y = Some ys ->
    optional_variable d hue = inr tt -> optional_variable d size = inr tt ->
    target ax w = (w0, inr a) -> heap w0 !! a = Some (OAxes A) ->
    all_numeric xs = false \/ all_numeric ys = false ->
    (2 <= length (complete_rows xs ys))%nat ->
    exists w',
      reg_scatter x y data hue legend size sizes ax w = (w', inl TypeError) /\
      drawn w0 w' a = scatter_layer d xs ys hue legend size sizes /\
      count is_line (drawn w0 w' a) = 0%nat.
Proof.
  intros x y data hue legend size sizes ax w w0 a A d xs ys
         Hd Hx Hy Hh Hs Ht HA Hbad Hrows.
  pose proof (frame_target ax w) as Hfp. rewrite Ht in Hfp. simpl in Hfp.
  assert (Hd0 : heap w0 !! data = Some (OFrame d))
    by (by apply (data_kept _ _ Hfp)).
  assert (Hne : a <> data) by (intros ->; rewrite Hd0 in HA; discriminate).
  set (A1 := with_labels x y
               (add_artists (scatter_layer d xs ys hue legend size sizes) A)).
  assert (Hdrawn : drawn w0 (put w0 a (OAxes A1)) a
                   = scatter_layer d xs ys hue legend size sizes).
  { eapply drawn_put; [exact HA|]. unfold artists_at.
    by rewrite heap_put_eq. }
  assert (Hfit : fit_layer xs ys None "black" = inl TypeError).
  { unfold fit_layer.
    destruct (complete_rows xs ys) as [| r [| r' rows]];
      [simpl in Hrows; lia | simpl in Hrows; lia |].
    destruct (as_floats xs) as [e | xv] eqn:Ex.
    - destruct (all_numeric xs) eqn:En.
      + clear -Ex En. exfalso. induction xs as [| [v | s] xs IH];
          simpl in *; try discriminate.
        destruct (as_floats xs); [by apply IH | discriminate].
      + rewrite (as_floats_non_numeric _ En) in Ex. by injection Ex as <-.
    - destruct Hbad as [Hn | Hn];
        [rewrite (as_floats_non_numeric _ Hn) in Ex; discriminate|].
      by rewrite (as_floats_non_numeric _ Hn). }
  exists (put w0 a (OAxes A1)). split; [| split; [exact Hdrawn|]].
  - unfold reg_scatter.
    erewrite bind_ok by (eapply sns_scatterplot_ok; eassumption).
    fold A1. unfold sns_regplot.
    erewrite bind_ok by (unfold get_frame; rewrite heap_put_ne by done;
                         rewrite Hd0; reflexivity).
    unfold getitem. rewrite Hx, Hy. do 2 erewrite bind_ok by reflexivity.
    cbn [s_values].
    erewrite bind_ok by (eapply target_again; eassumption).
    erewrite bind_ok by reflexivity.
    erewrite bind_raises; [reflexivity|]. by apply lift_raises.
  - rewrite Hdrawn. unfold scatter_layer. by destruct hue, size.
Qed.

(** With a single row nothing is fitted, and a column of strings raises
    nothing: the call returns with the scatter layer alone. *)
Lemma reg_scatter_single_label :
  snd (reg_scatter "x" "y" 1%positive None "auto" None None None
                   world_with_single_label) = inr tt /\
  new_artists None world_with_single_label
    (fst (reg_scatter "x" "y" 1%positive None "auto" None None None
                      world_with_single_label))
    = [PathCollection [(CStr "a", num 2)] "o" plain_style].
Proof. vm_compute. split; reflexivity. Qed.

(** What a call of [reg_scatter] that returns has done to the world. *)
Lemma reg_scatter_returns x y data hue legend size sizes ax w w' u :
  reg_scatter x y data hue legend size sizes ax w = (w', inr u) ->
  exists w0 a A new,
    target ax w = (w0, inr a) /\ heap w0 !! a = Some (OAxes A) /\
    w' = put w0 a (OAxes (mkAxes (ax_figure A) (ax_artists A ++ new)
                                 (ax_title A) x y (ax_xticklabels A)
                                 (ax_xtick_rotation A) (ax_xtick_ha A)
                                 (ax_grid A))) /\
    new = new_artists ax w w'.
Proof.
  unfold reg_scatter. intros H.
  apply bind_inr in H as ([] & w1 & Hs & H).
  apply sns_scatterplot_inr in Hs
    as (d & xs & ys & w0 & a & A & Hd & Hx & Hy & Ht & HA & ->).
  apply sns_regplot_inr in H
    as (d' & xs' & ys' & layer & w2 & a' & A' &
        Hd' & Hx' & Hy' & Hl & Ht' & HA' & ->).
  erewrite target_again in Ht' by eassumption.
  injection Ht' as <- <-.
  rewrite heap_put_eq in HA'. injection HA' as <-.
  rewrite put_put.
  exists w0, a, A,
    (scatter_layer d xs ys hue legend size sizes ++ layer).
  assert (Heq : with_labels x y
            (add_artists layer
               (with_labels x y
                  (add_artists (scatter_layer d xs ys hue legend size sizes) A)))
          = mkAxes (ax_figure A)
              (ax_artists A ++ scatter_layer d xs ys hue legend size sizes ++
               layer)
              (ax_title A) x y (ax_xticklabels A) (ax_xtick_rotation A)
              (ax_xtick_ha A) (ax_grid A)).
  { unfold with_labels, add_artists.
    cbn [ax_figure ax_artists ax_title ax_xlabel ax_ylabel ax_xticklabels
         ax_xtick_rotation ax_xtick_ha ax_grid app].
    by rewrite <- app_assoc. }
  rewrite Heq.
  split; [done|]. split; [done|]. split; [done|].
  unfold new_artists. rewrite Ht. symmetry.
  eapply drawn_put; [exact HA|]. unfold artists_at.
  by rewrite heap_put_eq.
Qed.

(** X17.  With no target and no figure open, a call of [reg_scatter] that
    returns has created exactly one figure, of the default size, with
    exactly one Axes: the second layer finds the Axes the first one
    created, and both layers are on it.  Nothing else in the heap has
    changed. *)
Theorem reg_scatter_creates_one_figure :
  forall x y data hue legend size sizes w w',
    reg_scatter x y data hue legend size sizes None w = (w', inr tt) ->
    figs w = [] ->
    exists f a,
      heap w !! f = None /\ heap w !! a = None /\ f <> a /\
      figs w' = [f] /\
      heap w' !! f = Some (OFigure (mkFigure default_figsize [a] 0 false)) /\
      owner w' a = Some f /\
      artists_at w' a = new_artists None w w' /\
      (forall l, l <> f -> l <> a -> heap w' !! l = heap w !! l).
Proof.
  intros x y data hue legend size sizes w w' H Hfigs.
  apply reg_scatter_returns in H as (w0 & a & A & new & Ht & HA & -> & Hnew).
  rewrite <- Hnew. clear Hnew.
  simpl in Ht. unfold plt_gca, bind, plt_gcf, get_figure in Ht.
  rewrite Hfigs in Ht.
  simpl in Ht. rewrite lookup_insert_eq in Ht. simpl in Ht.
  injection Ht as <- <-.
  set (f := fresh (dom (heap w))) in *.
  set (h1 := <[f := OFigure (mkFigure default_figsize [] 0 false)]> (heap w)) in *.
  set (a := fresh (dom h1)) in *.
  assert (Hf : heap w !! f = None) by (apply not_elem_of_dom, is_fresh).
  assert (Ha1 : h1 !! a = None) by (apply not_elem_of_dom, is_fresh).
  assert (Haf : a <> f).
  { intros Heq. rewrite Heq in Ha1. unfold h1 in Ha1.
    rewrite lookup_insert_eq in Ha1. discriminate. }
  assert (Ha : heap w !! a = None).
  { unfold h1 in Ha1. by rewrite lookup_insert_ne in Ha1. }
  simpl in HA. rewrite lookup_insert_ne in HA by done.
  rewrite lookup_insert_eq in HA. injection HA as <-.
  exists f, a. unfold owner, artists_at. simpl.
  rewrite lookup_insert_eq.
  rewrite (lookup_insert_ne _ a f) by done.
  rewrite (lookup_insert_eq _ f). rewrite Hfigs. simpl.
  repeat split; try done.
  intros l Hlf Hla. rewrite !lookup_insert_ne by done. unfold h1.
  by rewrite lookup_insert_ne.
Qed.

End RegScatterMore.
Section HyperparameterMore.
Import Num Data Stats Py Common Spec More.

(** [plt.figure] followed by [plt.gca()]: a new figure with one new, empty
    Axes, current from then on. *)
Lemma figure_and_axes w size :
  exists f a w1 w2,
    plt_figure size w = (w1, inr f) /\
    plt_gca w1 = (w2, inr a) /\
    (forall A, plt_gca (put w2 a (OAxes A)) = (put w2 a (OAxes A), inr a)) /\
    heap w !! f = None /\ heap w !! a = None /\ a <> f /\
    heap w2 !! a = Some (OAxes (new_axes f)) /\
    heap w2 !! f = Some (OFigure (mkFigure size [a] 0 false)) /\
    figs w2 = figs w ++ [f] /\ stdout w2 = stdout w /\
    (forall l, l <> f -> heap w1 !! l = heap w !! l) /\
    (forall l, l <> f -> l <> a -> heap w2 !! l = heap w !! l).
Proof.
  set (f := fresh (dom (heap w))).
  set (F0 := mkFigure size [] 0 false).
  set (w1 := mkWorld (<[f := OFigure F0]> (heap w)) (stdout w) (figs w ++ [f])).
  set (a := fresh (dom (heap w1))).
  assert (Hf : heap w !! f = None) by (apply not_elem_of_dom, is_fresh).
  assert (Ha1 : heap w1 !! a = None) by (apply not_elem_of_dom, is_fresh).
  assert (Haf : a <> f).
  { intros Heq. rewrite Heq in Ha1. simpl in Ha1.
    rewrite lookup_insert_eq in Ha1. discriminate. }
  assert (Ha : heap w !! a = None).
  { simpl in Ha1. by rewrite lookup_insert_ne in Ha1. }
  set (w2 := put (put w1 a (OAxes (new_axes f)))
                 f (OFigure (mkFigure size [a] 0 false))).
  exists f, a, w1, w2.
  split; [reflexivity|]. split.
  { unfold plt_gca, bind, plt_gcf, get_figure. simpl.
    rewrite last_snoc. simpl. rewrite lookup_insert_eq. simpl. reflexivity. }
  split.
  { intros A. unfold plt_gca, bind, plt_gcf, get_figure. simpl.
    rewrite last_snoc. simpl.
    rewrite lookup_insert_ne by done. rewrite lookup_insert_eq. simpl.
    reflexivity. }
  split; [done|]. split; [done|]. split; [done|].
  split. { simpl. rewrite lookup_insert_ne by done. apply lookup_insert_eq. }
  split. { simpl. apply lookup_insert_eq. }
  split; [done|]. split; [done|]. split.
  - intros l Hl. simpl. by rewrite lookup_insert_ne.
  - intros l Hlf Hla. simpl. by rewrite !lookup_insert_ne.
Qed.

Lemma to_array_elsewhere l xs w w1 f :
  to_array l w = (w, inr xs) -> heap w !! f = None ->
  (forall l', l' <> f -> heap w1 !! l' = heap w !! l') ->
  to_array l w1 = (w1, inr xs).
Proof.
  intros Hx Hf Hsame. apply (to_array_same_heap _ _ w); [done|].
  apply Hsame. intros ->.
  destruct (to_array_ok _ _ _ Hx) as (o & Ho & _). rewrite Hf in Ho.
  discriminate.
Qed.

(** X18.  For sequences of different length the call raises the ValueError
    of [plt.scatter], and by then it has created its figure: pyplot's list
    has one more figure, of size 10 by 6, not shown, with one empty Axes
    without title or labels.  The rest of the heap is unchanged. *)
Theorem visualize_hyperparameter_length_mismatch :
  forall param_name param_values scores xs ys w,
    to_array param_values w = (w, inr xs) ->
    to_array scores w = (w, inr ys) ->
    length xs <> length ys ->
    exists w' f a,
      visualize_hyperparameter param_name param_values scores w
        = (w', inl ValueError) /\
      heap w !! f = None /\ heap w !! a = None /\
      figs w' = figs w ++ [f] /\
      heap w' !! f = Some (OFigure (mkFigure (10, 6)%Q [a] 0 false)) /\
      heap w' !! a = Some (OAxes (new_axes f)) /\
      (forall l, l <> f -> l <> a -> heap w' !! l = heap w !! l).
Proof.
  intros param_name param_values scores xs ys w Hxs Hys Hlen.
  destruct (figure_and_axes w (10, 6)%Q)
    as (f & a & w1 & w2 & Hfig & Hgca & _ & Hf & Ha & Haf & Hw2a & Hw2f &
        Hfigs & _ & Hsame1 & Hsame2).
  exists w2, f, a. split; [| by repeat split].
  unfold visualize_hyperparameter.
  erewrite bind_ok by exact Hfig.
  erewrite bind_ok
    by (apply (to_array_elsewhere param_values xs w w1 f); assumption).
  erewrite bind_ok
    by (apply (to_array_elsewhere scores ys w w1 f); assumption).
  erewrite bind_raises; [reflexivity|].
  unfold plt_scatter. erewrite bind_ok by exact Hgca.
  unfold ax_scatter. apply Nat.eqb_neq in Hlen. by rewrite Hlen.
Qed.

(** X19.  [plt.show()] displays every figure pyplot manages: for
    sequences of one length the call returns, and it has displayed each
    figure that was open before it, not only its own, and has left every
    existing Axes as it was. *)
Theorem visualize_hyperparameter_shows_every_figure :
  forall param_name param_values scores xs ys w,
    to_array param_values w = (w, inr xs) ->
    to_array scores w = (w, inr ys) ->
    length xs = length ys ->
    figures_ok w ->
    exists w' f,
      visualize_hyperparameter param_name param_values scores w
        = (w', inr tt) /\
      heap w !! f = None /\
      (forall f0 F0, f0 ∈ figs w -> heap w !! f0 = Some (OFigure F0) ->
                     heap w' !! f0 = Some (OFigure (shown F0))) /\
      (forall l A, heap w !! l = Some (OAxes A) ->
                   heap w' !! l = Some (OAxes A)).
Proof.
  intros param_name param_values scores xs ys w Hxs Hys Hlen Hok.
  destruct (figure_and_axes w (10, 6)%Q)
    as (f & a & w1 & w2 & Hfig & Hgca & Hagain & Hf & Ha & Haf & Hw2a & Hw2f &
        Hfigs & _ & Hsame1 & Hsame2).
  set (Afin := mkAxes f [PathCollection (combine xs ys) "o" plain_style]
                ("Effect of " ++ param_name ++ " on Model Performance")
                param_name "Mean Squared Error" [] 0%Q "center"
                (Some ("both"%string, "-"%string))).
  set (w3 := put w2 a (OAxes Afin)).
  assert (Hold : forall l o, heap w !! l = Some o -> heap w3 !! l = Some o).
  { intros l o Hl.
    assert (l <> f) by (intros ->; rewrite Hf in Hl; discriminate).
    assert (l <> a) by (intros ->; rewrite Ha in Hl; discriminate).
    unfold w3. rewrite heap_put_ne by done. rewrite Hsame2 by done. done. }
  assert (Hshow : Forall (fun f' => exists F, heap w3 !! f' = Some (OFigure F))
                         (figs w3)).
  { unfold w3. cbn [figs put]. rewrite Hfigs. apply Forall_app. split.
    - eapply Forall_impl; [exact Hok|]. intros l [F HF]. exists F.
      by apply Hold.
    - apply Forall_singleton. eexists.
      rewrite heap_put_ne by done. exact Hw2f. }
  destruct (show_loop (figs w3) w3 Hshow)
    as (w' & Hrun & Hout & Hfg & Hoff & Hon).
  exists w', f. split; [| split; [done | split]].
  - unfold visualize_hyperparameter.
    erewrite bind_ok by exact Hfig.
    erewrite bind_ok
      by (apply (to_array_elsewhere param_values xs w w1 f); assumption).
    erewrite bind_ok
      by (apply (to_array_elsewhere scores ys w w1 f); assumption).
    unfold plt_scatter, plt_title, plt_xlabel, plt_ylabel, plt_grid_on.
    erewrite bind_ok; cycle 1.
    { erewrite bind_ok by exact Hgca. unfold ax_scatter.
      rewrite Hlen, Nat.eqb_refl. apply modify_axes_ok. exact Hw2a. }
    erewrite bind_ok; cycle 1.
    { erewrite bind_ok by apply Hagain. unfold ax_set_title.
      apply modify_axes_ok. apply heap_put_eq. }
    rewrite put_put.
    erewrite bind_ok; cycle 1.
    { erewrite bind_ok by apply Hagain. unfold ax_set_xlabel.
      apply modify_axes_ok. apply heap_put_eq. }
    rewrite put_put.
    erewrite bind_ok; cycle 1.
    { erewrite bind_ok by apply Hagain. unfold ax_set_ylabel.
      apply modify_axes_ok. apply heap_put_eq. }
    rewrite put_put.
    erewrite bind_ok; cycle 1.
    { erewrite bind_ok by apply Hagain. unfold ax_grid_on.
      apply modify_axes_ok. apply heap_put_eq. }
    rewrite put_put.
    unfold plt_show. exact Hrun.
  - intros f0 F0 Hin HF0. apply Hon.
    + unfold w3. cbn [figs put]. rewrite Hfigs. apply elem_of_app. by left.
    + by apply Hold.
  - intros l A Hl. rewrite Hoff; [by apply Hold|].
    unfold w3. cbn [figs put]. rewrite Hfigs. intros Hin.
    apply elem_of_app in Hin as [Hin | Hin].
    + unfold figures_ok in Hok. rewrite Forall_forall in Hok.
      destruct (Hok l Hin) as [F HF]. rewrite Hl in HF. discriminate.
    + apply list_elem_of_singleton in Hin. subst l.
      rewrite Hf in Hl. discriminate.
Qed.

End HyperparameterMore.
Section MoreWitnesses.
Import Num Data Stats Py Common Spec Examples More MoreExamples.


Lemma print_statistic_empty_witness :
  print_statistic "v" 1%positive world_with_empty =
    (printed world_with_empty
       (report_head "v" ++
        [ "Mean: nan"; "Median: nan"; "Standard Deviation: nan";
          "Minimum: nan"; "Maximum: nan" ]%string),
     inl IndexError).
Proof.
  apply (print_statistic_empty "v" 1%positive
           (mkSeries (Some "v"%string) []) world_with_empty).
  - vm_compute. reflexivity.
  - reflexivity.
Defined.

Lemma print_statistic_early_error_witness :
  print_statistic "v" 1%positive world_with_lists =
    (printed world_with_lists (report_head "v"), inl AttributeError).
Proof.
  apply (print_statistic_early_error "v" 1%positive AttributeError
           world_with_lists).
  vm_compute. reflexivity.
Defined.

Lemma pearson_correlation_rejects_witness :
  pearson_correlation perfect 1%positive 2%positive world_with_uneven_pair
    = (world_with_uneven_pair, inl ValueError).
Proof.
  apply (pearson_correlation_rejects perfect 1%positive 2%positive
           (s_values doubled_x) (s_values short_y)
           [of_Z 1; of_Z 2; of_Z 3; of_Z 4; of_Z 5] [of_Z 2; of_Z 4]
           world_with_uneven_pair).
  - vm_compute. reflexivity.
  - vm_compute. reflexivity.
  - vm_compute. reflexivity.
  - vm_compute. reflexivity.
  - left. simpl. lia.
Defined.

Lemma pearson_correlation_needs_names_witness :
  pearson_correlation perfect 1%positive 2%positive world_with_doubled_lists =
    (printed world_with_doubled_lists
       [ ("Pearson Correlation Coefficient: " ++ str (Fin 1))%string;
         ("P-value: " ++ str (Fin 0))%string ],
     inl AttributeError).
Proof.
  apply (pearson_correlation_needs_names perfect 1%positive 2%positive
           (s_values doubled_x) (s_values doubled_y) (Fin 1) (Fin 0)
           world_with_doubled_lists).
  - vm_compute. reflexivity.
  - vm_compute. reflexivity.
  - vm_compute. reflexivity.
  - left. exists (s_values doubled_x). vm_compute. reflexivity.
Defined.

Lemma beautybar_labels_match_bars_witness :
  exists m,
    new_artists None world_with_frames
      (fst (beautybar "x" "y" 2%positive 2%positive "skyblue" None
                      world_with_frames)) =
      bars [CStr "a"; CStr "b"] [of_Z 2; of_Z 5] "skyblue" ++
      map label_of_bar (bars [CStr "a"; CStr "b"] [of_Z 2; of_Z 5] "skyblue")
      ++ [average_line m; average_text m] /\
    length (bars [CStr "a"; CStr "b"] [of_Z 2; of_Z 5] "skyblue")
      = length [CStr "a"; CStr "b"].
Proof.
  apply (beautybar_labels_match_bars "x" "y" 2%positive 2%positive "skyblue"
           None world_with_frames _ totals
           [CStr "a"; CStr "b"] [num 2; num 5] [of_Z 2; of_Z 5]).
  - vm_compute. reflexivity.
  - vm_compute. reflexivity.
  - reflexivity.
  - reflexivity.
  - reflexivity.
  - reflexivity.
  - reflexivity.
  - apply NoDup_cons. split.
    + rewrite list_elem_of_singleton. discriminate.
    + apply NoDup_singleton.
  - reflexivity.
Defined.

Lemma beautybar_decorates_target_witness :
  exists w0 a A A' d xs,
    target None world_with_frames = (w0, inr a) /\
    heap w0 !! a = Some (OAxes A) /\
    heap (fst (beautybar "x" "y" 1%positive 2%positive "skyblue" None
                         world_with_frames)) !! a = Some (OAxes A') /\
    heap world_with_frames !! 1%positive = Some (OFrame d) /\
    column d "x" = Some xs /\
    ax_xlabel A' = "x"%string /\ ax_ylabel A' = "y"%string /\
    ax_xticklabels A' = map str_cell (categorical_order xs) /\
    ax_xtick_rotation A' = 45%Q /\ ax_xtick_ha A' = "right"%string /\
    ax_grid A' = Some ("y"%string, "--"%string) /\
    ax_title A' = ax_title A /\ ax_figure A' = ax_figure A /\
    exists new, ax_artists A' = ax_artists A ++ new.
Proof.
  apply (beautybar_decorates_target "x" "y" 1%positive 2%positive "skyblue"
           None world_with_frames).
  vm_compute. reflexivity.
Defined.

Lemma beautybar_missing_column_witness :
  beautybar "x" "y" 3%positive 2%positive "skyblue" (Some 11%positive)
            world_with_two_axes
    = (world_with_two_axes, inl ValueError).
Proof.
  apply (beautybar_missing_column "x" "y" 3%positive 2%positive "skyblue"
           (Some 11%positive) world_with_two_axes world_with_two_axes
           11%positive unlabelled).
  - reflexivity.
  - vm_compute. reflexivity.
  - right. reflexivity.
Defined.

Lemma beautybar_average_frame_without_column_witness :
  exists w',
    beautybar "x" "y" 1%positive 3%positive "skyblue" (Some 11%positive)
              world_with_two_axes = (w', inl (KeyError "y")) /\
    drawn world_with_two_axes w' 11%positive =
      bars [CStr "a"; CStr "a"; CStr "b"] [of_Z 1; of_Z 3; of_Z 5] "skyblue"
      ++ row_labels_from 0 [of_Z 1; of_Z 3; of_Z 5] /\
    hlines (drawn world_with_two_axes w' 11%positive) = [] /\
    figs w' = figs world_with_two_axes /\
    (forall l, l <> 11%positive ->
               heap w' !! l = heap world_with_two_axes !! l).
Proof.
  apply (beautybar_average_frame_without_column "x" "y" 1%positive 3%positive
           "skyblue" (Some 11%positive) world_with_two_axes
           world_with_two_axes 11%positive (new_axes 10%positive)
           sales unlabelled
           [CStr "a"; CStr "a"; CStr "b"] [num 1; num 3; num 5]).
  - reflexivity.
  - vm_compute. reflexivity.
  - vm_compute. reflexivity.
  - reflexivity.
  - reflexivity.
  - reflexivity.
  - vm_compute. reflexivity.
  - reflexivity.
Defined.

Lemma reg_scatter_missing_column_witness :
  reg_scatter "x" "z" 1%positive None "auto" None None None
              world_with_measurements
    = (world_with_measurements, inl ValueError).
Proof.
  apply (reg_scatter_missing_column "x" "z" 1%positive None "auto" None None
           None world_with_measurements measurements).
  - vm_compute. reflexivity.
  - right. reflexivity.
Defined.

Lemma reg_scatter_not_numeric_witness :
  exists w',
    reg_scatter "x" "y" 1%positive None "auto" None None (Some 11%positive)
                world_with_two_axes = (w', inl TypeError) /\
    drawn world_with_two_axes w' 11%positive =
      scatter_layer sales [CStr "a"; CStr "a"; CStr "b"]
                    [num 1; num 3; num 5] None "auto" None None /\
    count is_line (drawn world_with_two_axes w' 11%positive) = 0%nat.
Proof.
  apply (reg_scatter_not_numeric "x" "y" 1%positive None "auto" None None
           (Some 11%positive) world_with_two_axes world_with_two_axes
           11%positive (new_axes 10%positive) sales).
  - vm_compute. reflexivity.
  - reflexivity.
  - reflexivity.
  - reflexivity.
  - reflexivity.
  - reflexivity.
  - vm_compute. reflexivity.
  - left. reflexivity.
  - simpl. lia.
Defined.

Lemma reg_scatter_creates_one_figure_witness :
  exists f a,
    heap world_with_measurements !! f = None /\
    heap world_with_measurements !! a = None /\ f <> a /\
    figs (fst (reg_scatter "x" "y" 1%positive None "auto" None None None
                           world_with_measurements)) = [f] /\
    heap (fst (reg_scatter "x" "y" 1%positive None "auto" None None None
                           world_with_measurements)) !! f
      = Some (OFigure (mkFigure default_figsize [a] 0 false)) /\
    owner (fst (reg_scatter "x" "y" 1%positive None "auto" None None None
                            world_with_measurements)) a = Some f /\
    artists_at (fst (reg_scatter "x" "y" 1%positive None "auto" None None None
                                 world_with_measurements)) a
      = new_artists None world_with_measurements
          (fst (reg_scatter "x" "y" 1%positive None "auto" None None None
                            world_with_measurements)) /\
    (forall l, l <> f -> l <> a ->
       heap (fst (reg_scatter "x" "y" 1%positive None "auto" None None None
                              world_with_measurements)) !! l
       = heap world_with_measurements !! l).
Proof.
  apply (reg_scatter_creates_one_figure "x" "y" 1%positive None "auto" None
           None world_with_measurements).
  - vm_compute. reflexivity.
  - reflexivity.
Defined.

Lemma visualize_hyperparameter_length_mismatch_witness :
  exists w' f a,
    visualize_hyperparameter "alpha" 1%positive 2%positive
                             world_with_uneven_lists
      = (w', inl ValueError) /\
    heap world_with_uneven_lists !! f = None /\
    heap world_with_uneven_lists !! a = None /\
    figs w' = figs world_with_uneven_lists ++ [f] /\
    heap w' !! f = Some (OFigure (mkFigure (10, 6)%Q [a] 0 false)) /\
    heap w' !! a = Some (OAxes (new_axes f)) /\
    (forall l, l <> f -> l <> a ->
               heap w' !! l = heap world_with_uneven_lists !! l).
Proof.
  apply (visualize_hyperparameter_length_mismatch "alpha" 1%positive
           2%positive tried [num 3; num 1] world_with_uneven_lists).
  - vm_compute. reflexivity.
  - vm_compute. reflexivity.
  - simpl. lia.
Defined.

Lemma visualize_hyperparameter_shows_every_figure_witness :
  exists w' f,
    visualize_hyperparameter "alpha" 1%positive 2%positive
                             world_with_lists_and_figure = (w', inr tt) /\
    heap world_with_lists_and_figure !! f = None /\
    (forall f0 F0, f0 ∈ figs world_with_lists_and_figure ->
       heap world_with_lists_and_figure !! f0 = Some (OFigure F0) ->
       heap w' !! f0 = Some (OFigure (shown F0))) /\
    (forall l A, heap world_with_lists_and_figure !! l = Some (OAxes A) ->
                 heap w' !! l = Some (OAxes A)).
Proof.
  apply (visualize_hyperparameter_shows_every_figure "alpha" 1%positive
           2%positive tried errors world_with_lists_and_figure).
  - vm_compute. reflexivity.
  - vm_compute. reflexivity.
  - reflexivity.
  - apply Forall_singleton. eexists. vm_compute. reflexivity.
Defined.

End MoreWitnesses.
